(** * vertx/eventbus.py: the frame codec and the event-bus facade

    A shallow embedding of [src/vertx/eventbus.py].  The file has three
    layers:

    - [Python]: the fragment of the Python object model the module relies
      on (str as a sequence of code points, insertion-ordered dict,
      truthiness, hashing of dictionary keys, exceptions);
    - [Lib]: the standard-library calls made by the module ([json.dumps],
      [json.loads], [str.encode], [bytes.decode], [struct.pack],
      [int.from_bytes]), modelled after CPython's behaviour;
    - the classes [Delivery] and [EventBus] of the module itself.

    Not modelled: floating point numbers (a JSON text holding one is
    answered with [Unmodelled]), the interpreter's resource limits
    (memory, recursion depth), the socket, the clock of [ping] and
    [EventBus.disconnect].  The event loop appears as the list of tasks
    created on it, the thread as the flag that it was started, and the
    queue as the list of its payloads, oldest first. *)

From Stdlib Require Import ZArith NArith List Lia Bool Ascii String.
From Stdlib Require Import DecimalN DecimalPos DecimalFacts.
From Stdlib.Strings Require Import Byte.
From stdpp Require Import base option list gmap.
Import ListNotations.

Set Default Proof Using "Type".

(* ===================================================================== *)
(** ** The Python object model *)
(* ===================================================================== *)

Module Python.

(** A [str] is a sequence of Unicode code points, [bytes] a sequence of
    octets. *)
Abbreviation pystr := (list N).
Abbreviation bytes := (list byte).

(** A literal of the source, as code points. *)
Definition py (s : string) : pystr :=
  List.map N_of_ascii (list_ascii_of_string s).

(** The exceptions the module can meet. *)
Inductive exn : Set :=
| JSONDecodeError
| UnicodeDecodeError
| UnicodeEncodeError
| StructError
| TypeError
| KeyError
| RuntimeError.

(** The outcome of a call: a value, an exception, a value outside the
    model (a float), or an exhausted recursion budget of the model. *)
Inductive result (A : Type) : Type :=
| Ok (a : A)
| Raise (e : exn)
| Unmodelled
| OutOfFuel.

Arguments Ok {A} a.
Arguments Raise {A} e.
Arguments Unmodelled {A}.
Arguments OutOfFuel {A}.

Definition bind {A B} (r : result A) (k : A -> result B) : result B :=
  match r with
  | Ok a => k a
  | Raise e => Raise e
  | Unmodelled => Unmodelled
  | OutOfFuel => OutOfFuel
  end.

(** The Python values that travel through the module: what [json.loads]
    can return and [json.dumps] can print.  A [dict] keeps its keys in
    insertion order. *)
#[local] Unset Elimination Schemes.
Inductive json : Type :=
| JNull
| JBool (b : bool)
| JInt (z : Z)
| JStr (s : pystr)
| JList (l : list json)
| JDict (d : list (pystr * json)).
#[local] Set Elimination Schemes.

Abbreviation dict := (list (pystr * json)).

Section json_induction.
Variable P : json -> Prop.
Hypothesis Hnull : P JNull.
Hypothesis Hbool : forall b, P (JBool b).
Hypothesis Hint : forall z, P (JInt z).
Hypothesis Hstr : forall s, P (JStr s).
Hypothesis Hlist : forall l, Forall P l -> P (JList l).
Hypothesis Hdict : forall d, Forall (fun kv => P (snd kv)) d -> P (JDict d).

Fixpoint json_nested_ind (v : json) : P v :=
  match v with
  | JNull => Hnull
  | JBool b => Hbool b
  | JInt z => Hint z
  | JStr s => Hstr s
  | JList l =>
      Hlist l ((fix go (l : list json) : Forall P l :=
                  match l with
                  | [] => @List.Forall_nil _ P
                  | x :: r => @List.Forall_cons _ P x r (json_nested_ind x) (go r)
                  end) l)
  | JDict d =>
      Hdict d ((fix go (d : dict) : Forall (fun kv => P (snd kv)) d :=
                  match d with
                  | [] => @List.Forall_nil _ _
                  | kv :: r =>
                      @List.Forall_cons _ (fun kv => P (snd kv)) kv r
                        (json_nested_ind (snd kv)) (go r)
                  end) d)
  end.
End json_induction.

(** [a == b] on strings *)
Fixpoint str_eqb (a b : pystr) : bool :=
  match a, b with
  | [], [] => true
  | x :: a', y :: b' => (x =? y)%N && str_eqb a' b'
  | _, _ => false
  end.

(** [bool(v)] *)
Definition truthy (v : json) : bool :=
  match v with
  | JNull => false
  | JBool b => b
  | JInt z => negb (z =? 0)%Z
  | JStr s => negb (str_eqb s [])
  | JList l => match l with [] => false | _ => true end
  | JDict d => match d with [] => false | _ => true end
  end.

(** [k in d] *)
Definition dict_contains (k : pystr) (d : dict) : bool :=
  existsb (fun kv => str_eqb (fst kv) k) d.

(** [d.get(k)] *)
Fixpoint dict_get (k : pystr) (d : dict) : option json :=
  match d with
  | [] => None
  | (k', v) :: r => if str_eqb k' k then Some v else dict_get k r
  end.

(** [d[k] = v]: an existing key keeps its place, a new one goes last. *)
Fixpoint dict_set (k : pystr) (v : json) (d : dict) : dict :=
  match d with
  | [] => [(k, v)]
  | (k', v') :: r =>
      if str_eqb k' k then (k', v) :: r else (k', v') :: dict_set k v r
  end.

(** [dict(pairs)] *)
Definition dict_of_pairs (pairs : list (pystr * json)) : dict :=
  fold_left (fun d kv => dict_set (fst kv) (snd kv) d) pairs [].

(** Keys of the listener table.  Python hashes [True] and [1] (and
    [False] and [0]) to the same key; lists and dicts are unhashable. *)
Inductive key : Set :=
| KNone
| KInt (z : Z)
| KStr (s : pystr).

Definition hash_key (v : json) : option key :=
  match v with
  | JNull => Some KNone
  | JBool b => Some (KInt (if b then 1 else 0))
  | JInt z => Some (KInt z)
  | JStr s => Some (KStr s)
  | JList _ => None
  | JDict _ => None
  end.

#[global] Instance key_eq_dec : EqDecision key.
Proof. solve_decision. Defined.

Definition key_to_sum (k : key) : unit + (Z + pystr) :=
  match k with
  | KNone => inl tt
  | KInt z => inr (inl z)
  | KStr s => inr (inr s)
  end.

Definition key_of_sum (s : unit + (Z + pystr)) : key :=
  match s with
  | inl _ => KNone
  | inr (inl z) => KInt z
  | inr (inr s) => KStr s
  end.

#[global] Instance key_countable : Countable key.
Proof.
  apply (inj_countable' key_to_sum key_of_sum).
  intros [| |]; reflexivity.
Defined.

(** Well-formed data: every string is Unicode text (code points below
    0x110000, none of them a surrogate) and no dict repeats a key. *)
Definition is_surrogate (c : N) : bool := ((0xD800 <=? c) && (c <=? 0xDFFF))%N.
Definition is_scalar (c : N) : bool := ((c <? 0x110000) && negb (is_surrogate c))%N.
Definition wf_str (s : pystr) : Prop := Forall (fun c => is_scalar c = true) s.

Fixpoint wf_json (v : json) : Prop :=
  match v with
  | JNull | JBool _ | JInt _ => True
  | JStr s => wf_str s
  | JList l => (fix all (l : list json) : Prop :=
                  match l with
                  | [] => True
                  | x :: r => wf_json x /\ all r
                  end) l
  | JDict d => NoDup (List.map fst d) /\
               (fix all (d : dict) : Prop :=
                  match d with
                  | [] => True
                  | kv :: r => (wf_str (fst kv) /\ wf_json (snd kv)) /\ all r
                  end) d
  end.

End Python.
Export Python.

(* ===================================================================== *)
(** ** The standard-library calls of the module *)
(* ===================================================================== *)

Module Lib.

Local Open Scope N_scope.

(** [lo <= n <= hi] *)
Definition in_range (lo hi n : N) : bool := (lo <=? n) && (n <=? hi).

(** The byte of a number below 256. *)
Definition byte_of_N (n : N) : byte :=
  match Byte.of_N n with Some b => b | None => x00 end.

(** *** [str.encode()] and [bytes.decode()]: strict UTF-8 *)

Definition encode_char (c : N) : result bytes :=
  if c <? 0x80 then Ok [byte_of_N c]
  else if c <? 0x800 then
    Ok [byte_of_N (N.lor 0xC0 (N.shiftr c 6));
        byte_of_N (N.lor 0x80 (N.land c 0x3F))]
  else if is_surrogate c then Raise UnicodeEncodeError
  else if c <? 0x10000 then
    Ok [byte_of_N (N.lor 0xE0 (N.shiftr c 12));
        byte_of_N (N.lor 0x80 (N.land (N.shiftr c 6) 0x3F));
        byte_of_N (N.lor 0x80 (N.land c 0x3F))]
  else
    Ok [byte_of_N (N.lor 0xF0 (N.shiftr c 18));
        byte_of_N (N.lor 0x80 (N.land (N.shiftr c 12) 0x3F));
        byte_of_N (N.lor 0x80 (N.land (N.shiftr c 6) 0x3F));
        byte_of_N (N.lor 0x80 (N.land c 0x3F))].

Fixpoint str_encode (s : pystr) : result bytes :=
  match s with
  | [] => Ok []
  | c :: r =>
      bind (encode_char c) (fun bs =>
      bind (str_encode r) (fun rest => Ok (bs ++ rest)))
  end.

Definition low6 (n : N) : N := N.land n 0x3F.

Fixpoint bytes_decode (b : bytes) : result pystr :=
  match b with
  | [] => Ok []
  | b0 :: r0 =>
    let n0 := Byte.to_N b0 in
    if n0 <? 0x80 then
      bind (bytes_decode r0) (fun s => Ok (n0 :: s))
    else if in_range 0xC2 0xDF n0 then
      match r0 with
      | b1 :: r1 =>
          let n1 := Byte.to_N b1 in
          if in_range 0x80 0xBF n1 then
            bind (bytes_decode r1) (fun s =>
              Ok (N.lor (N.shiftl (N.land n0 0x1F) 6) (low6 n1) :: s))
          else Raise UnicodeDecodeError
      | _ => Raise UnicodeDecodeError
      end
    else if in_range 0xE0 0xEF n0 then
      match r0 with
      | b1 :: b2 :: r2 =>
          let n1 := Byte.to_N b1 in
          let n2 := Byte.to_N b2 in
          if in_range (if n0 =? 0xE0 then 0xA0 else 0x80)
                      (if n0 =? 0xED then 0x9F else 0xBF) n1
             && in_range 0x80 0xBF n2 then
            bind (bytes_decode r2) (fun s =>
              Ok (N.lor (N.shiftl (N.land n0 0x0F) 12)
                    (N.lor (N.shiftl (low6 n1) 6) (low6 n2)) :: s))
          else Raise UnicodeDecodeError
      | _ => Raise UnicodeDecodeError
      end
    else if in_range 0xF0 0xF4 n0 then
      match r0 with
      | b1 :: b2 :: b3 :: r3 =>
          let n1 := Byte.to_N b1 in
          let n2 := Byte.to_N b2 in
          let n3 := Byte.to_N b3 in
          if in_range (if n0 =? 0xF0 then 0x90 else 0x80)
                      (if n0 =? 0xF4 then 0x8F else 0xBF) n1
             && in_range 0x80 0xBF n2 && in_range 0x80 0xBF n3 then
            bind (bytes_decode r3) (fun s =>
              Ok (N.lor (N.shiftl (N.land n0 0x07) 18)
                    (N.lor (N.shiftl (low6 n1) 12)
                       (N.lor (N.shiftl (low6 n2) 6) (low6 n3))) :: s))
          else Raise UnicodeDecodeError
      | _ => Raise UnicodeDecodeError
      end
    else Raise UnicodeDecodeError
  end.

(** *** [int.from_bytes(b, 'big')], slices and [struct.pack] *)

Definition int_from_bytes (b : bytes) : N :=
  fold_left (fun acc x => acc * 256 + Byte.to_N x) b 0.

(** [b[:n]], cut at the end of [b] as Python slices are. *)
Fixpoint slice_to (n : N) (b : bytes) : bytes :=
  match b with
  | [] => []
  | x :: r => if n =? 0 then [] else x :: slice_to (N.pred n) r
  end.

(** [b[i:]] *)
Fixpoint slice_from (i : nat) (b : bytes) : bytes :=
  match i, b with
  | O, _ => b
  | S i', [] => []
  | S i', _ :: r => slice_from i' r
  end.

(** [struct.pack("!i", n)]: a signed 32-bit integer, big-endian;
    [struct.error] outside the range of the format. *)
Definition pack_i (n : Z) : result bytes :=
  if ((-2147483648 <=? n) && (n <=? 2147483647))%Z then
    let u := Z.to_N (n mod 4294967296)%Z in
    Ok [byte_of_N (N.shiftr u 24);
        byte_of_N (N.land (N.shiftr u 16) 0xFF);
        byte_of_N (N.land (N.shiftr u 8) 0xFF);
        byte_of_N (N.land u 0xFF)]
  else Raise StructError.

(** [struct.pack("!i%ss" % len(msg), n, msg)]: the repeat count of [s] is
    the length of [msg], so [msg] is neither cut nor padded. *)
Definition struct_pack_i_s (n : Z) (msg : bytes) : result bytes :=
  bind (pack_i n) (fun prefix => Ok (prefix ++ msg)).

(** *** [json.dumps] with its defaults
    ([ensure_ascii=True], separators [", "] and [": "])

    Characters are written by their code points: 32 space, 34 double
    quote, 44 comma, 45 minus, 46 full stop, 47 slash, 48 to 57 the
    digits, 58 colon, 91 and 93 the square brackets, 92 backslash, 123
    and 125 the braces; 98, 102, 110, 114, 116 and 117 the letters b, f,
    n, r, t and u of the escapes; 43, 69 and 101 the plus sign and the
    letters E and e of an exponent. *)

Definition hexdigit (n : N) : N := if n <? 10 then 48 + n else 87 + n.

(** ['{0:04x}'.format(n)] for [n < 0x10000] *)
Definition format_04x (n : N) : pystr :=
  [hexdigit (N.land (N.shiftr n 12) 15);
   hexdigit (N.land (N.shiftr n 8) 15);
   hexdigit (N.land (N.shiftr n 4) 15);
   hexdigit (N.land n 15)].

Definition escape_char (c : N) : pystr :=
  if c =? 34 then [92; 34]                  (* backslash, quote *)
  else if c =? 92 then [92; 92]             (* backslash, backslash *)
  else if c =? 8 then [92; 98]              (* backslash, b *)
  else if c =? 12 then [92; 102]            (* backslash, f *)
  else if c =? 10 then [92; 110]            (* backslash, n *)
  else if c =? 13 then [92; 114]            (* backslash, r *)
  else if c =? 9 then [92; 116]             (* backslash, t *)
  else if in_range 32 126 c then [c]
  else if c <? 0x10000 then 92 :: 117 :: format_04x c
  else
    let n := c - 0x10000 in
    let s1 := N.lor 0xD800 (N.land (N.shiftr n 10) 0x3FF) in
    let s2 := N.lor 0xDC00 (N.land n 0x3FF) in
    (92 :: 117 :: format_04x s1) ++ (92 :: 117 :: format_04x s2).

Definition encode_basestring_ascii (s : pystr) : pystr :=
  34 :: flat_map escape_char s ++ [34].

Fixpoint chars_of_uint (d : Decimal.uint) : pystr :=
  match d with
  | Decimal.Nil => []
  | Decimal.D0 r => 48 :: chars_of_uint r
  | Decimal.D1 r => 49 :: chars_of_uint r
  | Decimal.D2 r => 50 :: chars_of_uint r
  | Decimal.D3 r => 51 :: chars_of_uint r
  | Decimal.D4 r => 52 :: chars_of_uint r
  | Decimal.D5 r => 53 :: chars_of_uint r
  | Decimal.D6 r => 54 :: chars_of_uint r
  | Decimal.D7 r => 55 :: chars_of_uint r
  | Decimal.D8 r => 56 :: chars_of_uint r
  | Decimal.D9 r => 57 :: chars_of_uint r
  end.

(** [repr] of an int *)
Definition int_repr (z : Z) : pystr :=
  match z with
  | Z0 => [48]
  | Zpos p => chars_of_uint (Pos.to_uint p)
  | Zneg p => 45 :: chars_of_uint (Pos.to_uint p)
  end.

Fixpoint json_dumps (v : json) : pystr :=
  match v with
  | JNull => [110; 117; 108; 108]               (* null *)
  | JBool true => [116; 114; 117; 101]          (* true *)
  | JBool false => [102; 97; 108; 115; 101]     (* false *)
  | JInt z => int_repr z
  | JStr s => encode_basestring_ascii s
  | JList l =>
      match l with
      | [] => [91; 93]
      | x :: r =>
          91 :: json_dumps x ++
          (fix items (l : list json) : pystr :=
             match l with
             | [] => [93]
             | y :: r' => 44 :: 32 :: json_dumps y ++ items r'
             end) r
      end
  | JDict d =>
      match d with
      | [] => [123; 125]
      | (k, x) :: r =>
          123 :: encode_basestring_ascii k ++ 58 :: 32 :: json_dumps x ++
          (fix items (d : dict) : pystr :=
             match d with
             | [] => [125]
             | (k', y) :: r' =>
                 44 :: 32 :: encode_basestring_ascii k' ++
                 58 :: 32 :: json_dumps y ++ items r'
             end) r
      end
  end.

(** *** [json.loads] on a [str], with its defaults ([strict=True]) *)

Definition is_ws (c : N) : bool :=
  (c =? 32) || (c =? 9) || (c =? 10) || (c =? 13).

Fixpoint skip_ws (s : pystr) : pystr :=
  match s with
  | c :: r => if is_ws c then skip_ws r else s
  | [] => []
  end.

(** [s[i:i+len(p)] == p]: the rest of [s] after the prefix [p]. *)
Fixpoint starts_with (p s : pystr) : option pystr :=
  match p, s with
  | [], _ => Some s
  | x :: p', y :: s' => if x =? y then starts_with p' s' else None
  | _ :: _, [] => None
  end.

Definition hexval (c : N) : option N :=
  if in_range 48 57 c then Some (c - 48)
  else if in_range 97 102 c then Some (c - 87)
  else if in_range 65 70 c then Some (c - 55)
  else None.

Definition hex4 (a b c d : N) : option N :=
  match hexval a, hexval b, hexval c, hexval d with
  | Some x, Some y, Some z, Some w => Some (((x * 16 + y) * 16 + z) * 16 + w)
  | _, _, _, _ => None
  end.

(** The escapes of one character after a backslash. *)
Definition backslash (c : N) : option N :=
  if c =? 34 then Some 34
  else if c =? 92 then Some 92
  else if c =? 47 then Some 47
  else if c =? 98 then Some 8
  else if c =? 102 then Some 12
  else if c =? 110 then Some 10
  else if c =? 114 then Some 13
  else if c =? 116 then Some 9
  else None.

Definition cons_char (c : N) (r : result (pystr * pystr)) : result (pystr * pystr) :=
  bind r (fun p => Ok (c :: fst p, snd p)).

(** [scanstring]: the text after an opening quote, up to the closing
    one.  A surrogate pair written as two [\u] escapes is joined. *)
Fixpoint scanstring (s : pystr) : result (pystr * pystr) :=
  match s with
  | [] => Raise JSONDecodeError
  | c :: r =>
    if c =? 34 then Ok ([], r)
    else if c =? 92 then
      match r with
      | [] => Raise JSONDecodeError
      | e :: r1 =>
        if e =? 117 then
          match r1 with
          | h1 :: h2 :: h3 :: h4 :: r2 =>
            match hex4 h1 h2 h3 h4 with
            | None => Raise JSONDecodeError
            | Some uni =>
              if in_range 0xD800 0xDBFF uni then
                match r2 with
                | b :: u :: r3 =>
                  if (b =? 92) && (u =? 117) then
                    match r3 with
                    | g1 :: g2 :: g3 :: g4 :: r4 =>
                      match hex4 g1 g2 g3 g4 with
                      | None => Raise JSONDecodeError
                      | Some uni2 =>
                        if in_range 0xDC00 0xDFFF uni2 then
                          cons_char
                            (0x10000 + N.lor (N.shiftl (uni - 0xD800) 10)
                                             (uni2 - 0xDC00))
                            (scanstring r4)
                        else cons_char uni (scanstring r2)
                      end
                    | _ => Raise JSONDecodeError
                    end
                  else cons_char uni (scanstring r2)
                | _ => cons_char uni (scanstring r2)
                end
              else cons_char uni (scanstring r2)
            end
          | _ => Raise JSONDecodeError
          end
        else
          match backslash e with
          | Some x => cons_char x (scanstring r1)
          | None => Raise JSONDecodeError
          end
      end
    else if c <? 32 then Raise JSONDecodeError
    else cons_char c (scanstring r)
  end.

Definition digit_of_char (c : N) : option (Decimal.uint -> Decimal.uint) :=
  if c =? 48 then Some Decimal.D0
  else if c =? 49 then Some Decimal.D1
  else if c =? 50 then Some Decimal.D2
  else if c =? 51 then Some Decimal.D3
  else if c =? 52 then Some Decimal.D4
  else if c =? 53 then Some Decimal.D5
  else if c =? 54 then Some Decimal.D6
  else if c =? 55 then Some Decimal.D7
  else if c =? 56 then Some Decimal.D8
  else if c =? 57 then Some Decimal.D9
  else None.

(** The longest run of ASCII digits at the head of [s]. *)
Fixpoint scan_digits (s : pystr) : Decimal.uint * pystr :=
  match s with
  | [] => (Decimal.Nil, [])
  | c :: r =>
      match digit_of_char c with
      | Some d => let '(ds, rest) := scan_digits r in (d ds, rest)
      | None => (Decimal.Nil, s)
      end
  end.

Definition is_digit (c : N) : bool := in_range 48 57 c.

(** Whether a fraction or an exponent follows the integer part: the
    number is then a float. *)
Definition float_follows (s : pystr) : bool :=
  match s with
  | c :: d :: r =>
      if c =? 46 then is_digit d
      else if (c =? 101) || (c =? 69) then
        if (d =? 43) || (d =? 45) then
          match r with x :: _ => is_digit x | [] => false end
        else is_digit d
      else false
  | _ => false
  end.

Definition finish_number (neg : bool) (d : Decimal.uint) (rest : pystr)
  : result (json * pystr) :=
  if float_follows rest then Unmodelled
  else
    let n := Z.of_N (N.of_uint d) in
    Ok (JInt (if neg then (- n)%Z else n), rest).

(** The integer part of a number: an optional minus sign, then a lone
    zero or a run of digits that does not start with zero. *)
Definition match_integer (neg : bool) (s : pystr) : option (result (json * pystr)) :=
  match s with
  | c :: r =>
      if c =? 48 then Some (finish_number neg (Decimal.D0 Decimal.Nil) r)
      else if is_digit c then
        let '(d, rest) := scan_digits s in Some (finish_number neg d rest)
      else None
  | [] => None
  end.

Definition match_number (s : pystr) : option (result (json * pystr)) :=
  match s with
  | c :: r => if c =? 45 then match_integer true r else match_integer false s
  | [] => None
  end.

Definition lit_null : pystr := [110; 117; 108; 108].
Definition lit_true : pystr := [116; 114; 117; 101].
Definition lit_false : pystr := [102; 97; 108; 115; 101].
Definition lit_NaN : pystr := [78; 97; 78].
Definition lit_Infinity : pystr := [73; 110; 102; 105; 110; 105; 116; 121].

(** What [scan_once] does when the text opens neither a string, an
    object nor an array. *)
Definition scan_atom (s : pystr) : result (json * pystr) :=
  match starts_with lit_null s with
  | Some r => Ok (JNull, r)
  | None =>
  match starts_with lit_true s with
  | Some r => Ok (JBool true, r)
  | None =>
  match starts_with lit_false s with
  | Some r => Ok (JBool false, r)
  | None =>
  match match_number s with
  | Some res => res
  | None =>
  match starts_with lit_NaN s with
  | Some _ => Unmodelled
  | None =>
  match starts_with lit_Infinity s with
  | Some _ => Unmodelled
  | None =>
  match starts_with (45 :: lit_Infinity) s with
  | Some _ => Unmodelled
  | None => Raise JSONDecodeError
  end end end end end end end.

Fixpoint scan_once (n : nat) (s : pystr) {struct n} : result (json * pystr) :=
  match n with
  | O => OutOfFuel
  | S n' =>
    match s with
    | [] => Raise JSONDecodeError
    | c :: r =>
      if c =? 34 then
        bind (scanstring r) (fun p => Ok (JStr (fst p), snd p))
      else if c =? 123 then
        match skip_ws r with
        | c1 :: r1 =>
            if c1 =? 125 then Ok (JDict [], r1)
            else if c1 =? 34 then
              bind (object_loop n' r1) (fun p =>
                Ok (JDict (dict_of_pairs (fst p)), snd p))
            else Raise JSONDecodeError
        | [] => Raise JSONDecodeError
        end
      else if c =? 91 then
        match skip_ws r with
        | c1 :: r1 =>
            if c1 =? 93 then Ok (JList [], r1)
            else bind (array_loop n' (c1 :: r1)) (fun p =>
                   Ok (JList (fst p), snd p))
        | [] => Raise JSONDecodeError
        end
      else scan_atom s
    end
  end

with array_loop (n : nat) (s : pystr) {struct n} : result (list json * pystr) :=
  match n with
  | O => OutOfFuel
  | S n' =>
    bind (scan_once n' s) (fun p =>
      match skip_ws (snd p) with
      | c :: r =>
          if c =? 93 then Ok ([fst p], r)
          else if c =? 44 then
            bind (array_loop n' (skip_ws r)) (fun q =>
              Ok (fst p :: fst q, snd q))
          else Raise JSONDecodeError
      | [] => Raise JSONDecodeError
      end)
  end

with object_loop (n : nat) (s : pystr) {struct n}
  : result (list (pystr * json) * pystr) :=
  match n with
  | O => OutOfFuel
  | S n' =>
    bind (scanstring s) (fun k =>
      match skip_ws (snd k) with
      | c :: r =>
          if c =? 58 then
            bind (scan_once n' (skip_ws r)) (fun p =>
              match skip_ws (snd p) with
              | c2 :: r2 =>
                  if c2 =? 125 then Ok ([(fst k, fst p)], r2)
                  else if c2 =? 44 then
                    match skip_ws r2 with
                    | c3 :: r3 =>
                        if c3 =? 34 then
                          bind (object_loop n' r3) (fun q =>
                            Ok ((fst k, fst p) :: fst q, snd q))
                        else Raise JSONDecodeError
                    | [] => Raise JSONDecodeError
                    end
                  else Raise JSONDecodeError
              | [] => Raise JSONDecodeError
              end)
          else Raise JSONDecodeError
      | [] => Raise JSONDecodeError
      end)
  end.

(** [json.loads(s)]: leading whitespace, one value, trailing whitespace,
    and nothing else. *)
Definition json_loads (s : pystr) : result json :=
  let s0 := skip_ws s in
  bind (scan_once (S (2 * length s0)) s0) (fun p =>
    match skip_ws (snd p) with
    | [] => Ok (fst p)
    | _ :: _ => Raise JSONDecodeError
    end).

End Lib.

Import Lib.

(* ===================================================================== *)
(** ** class Delivery *)
(* ===================================================================== *)

(** An instance holds one attribute, the dict [self.data]. *)
Record Delivery : Type := { data : dict }.

(** An optional argument as the Python value it is bound to. *)
Definition str_arg (a : option pystr) : json :=
  match a with Some s => JStr s | None => JNull end.

(** The same for a dict argument. *)
Definition dict_arg (a : option dict) : json :=
  match a with Some d => JDict d | None => JNull end.

(** [Delivery.__init__], with the argument types of its type comment:
    [(str, Optional[str], Optional[str], Optional[dict], Optional[dict])]. *)
Definition Delivery_init (type : pystr) (address replyAddress : option pystr)
    (header body : option dict) : Delivery :=
  let data := [(py "type", JStr type)] in
  let data := if truthy (str_arg address)
              then dict_set (py "address") (str_arg address) data else data in
  let data := if truthy (str_arg replyAddress)
              then dict_set (py "replyAddress") (str_arg replyAddress) data
              else data in
  let data := if truthy (dict_arg header)
              then dict_set (py "header") (dict_arg header) data else data in
  let data := if truthy (dict_arg body)
              then dict_set (py "body") (dict_arg body) data else data in
  {| data := data |}.

(** [Delivery()], every argument at its default. *)
Definition Delivery_default : Delivery :=
  Delivery_init (py "ping") None None None None.

(** [Delivery.__repr__] *)
Definition repr (self : Delivery) : pystr := json_dumps (JDict (data self)).

(** [Delivery.serialize] *)
Definition serialize (self : Delivery) : result bytes :=
  bind (str_encode (repr self)) (fun msg =>
    struct_pack_i_s (Z.of_nat (length msg)) msg).

(** [Delivery.deserialize] *)
Definition deserialize (byte_array : bytes) : result json :=
  let length := int_from_bytes (slice_to 4 byte_array) in
  bind (bytes_decode (slice_to length (slice_from 4 byte_array))) json_loads.

(* ===================================================================== *)
(** ** class EventBus *)
(* ===================================================================== *)

(** What the listener table holds: the logging lambda that [send] builds
    for an address, or a function supplied by the caller, named by a
    number. *)
Inductive handler : Type :=
| LogDelivery (address : json)
| Callback (name : nat).

(** The coroutines [connect] hands to the event loop. *)
Inductive coroutine : Set :=
| ConnectThenListen
| Ping.

(** The attributes of an instance, together with what the instance has
    done so far: [calls] lists the handler invocations and [errors]
    counts the records sent to [LOGGER.error]. *)
Record EventBus : Type := {
  host : pystr;
  port : Z;
  listen_funcs : gmap key handler;
  inputs : list Delivery;
  tasks : list coroutine;
  daemon_started : bool;
  written : bytes;
  calls : list (handler * json);
  errors : nat
}.

(** [EventBus.__init__] *)
Definition EventBus_init (host : pystr) (port : Z) : EventBus :=
  {| host := host; port := port; listen_funcs := ∅; inputs := [];
     tasks := []; daemon_started := false;
     written := []; calls := []; errors := 0 |}.

Definition set_listen_funcs (f : gmap key handler) (b : EventBus) : EventBus :=
  {| host := host b; port := port b;
     listen_funcs := f; inputs := inputs b; tasks := tasks b;
     daemon_started := daemon_started b; written := written b;
     calls := calls b; errors := errors b |}.

Definition set_inputs (q : list Delivery) (b : EventBus) : EventBus :=
  {| host := host b; port := port b;
     listen_funcs := listen_funcs b; inputs := q; tasks := tasks b;
     daemon_started := daemon_started b; written := written b;
     calls := calls b; errors := errors b |}.

Definition set_tasks (t : list coroutine) (b : EventBus) : EventBus :=
  {| host := host b; port := port b;
     listen_funcs := listen_funcs b; inputs := inputs b; tasks := t;
     daemon_started := daemon_started b; written := written b;
     calls := calls b; errors := errors b |}.

Definition set_daemon_started (s : bool) (b : EventBus) : EventBus :=
  {| host := host b; port := port b;
     listen_funcs := listen_funcs b; inputs := inputs b; tasks := tasks b;
     daemon_started := s; written := written b;
     calls := calls b; errors := errors b |}.

Definition set_written (w : bytes) (b : EventBus) : EventBus :=
  {| host := host b; port := port b;
     listen_funcs := listen_funcs b; inputs := inputs b; tasks := tasks b;
     daemon_started := daemon_started b; written := w;
     calls := calls b; errors := errors b |}.

Definition set_calls (c : list (handler * json)) (b : EventBus) : EventBus :=
  {| host := host b; port := port b;
     listen_funcs := listen_funcs b; inputs := inputs b; tasks := tasks b;
     daemon_started := daemon_started b; written := written b;
     calls := c; errors := errors b |}.

Definition set_errors (n : nat) (b : EventBus) : EventBus :=
  {| host := host b; port := port b;
     listen_funcs := listen_funcs b; inputs := inputs b; tasks := tasks b;
     daemon_started := daemon_started b; written := written b;
     calls := calls b; errors := n |}.

(** A method returns or raises, and leaves the instance in a new state. *)
Definition method : Type := EventBus -> result unit * EventBus.

(** [v == s] for a string literal [s] *)
Definition equals_str (v : json) (s : pystr) : bool :=
  match v with JStr x => str_eqb x s | _ => false end.

(** [d.get(k)] as a Python value *)
Definition get_value (k : pystr) (d : dict) : json :=
  match dict_get k d with Some v => v | None => JNull end.

(** [EventBus.send].  [call_soon_threadsafe(self.inputs.put_nowait, _)]
    puts the payload at the back of the queue. *)
Definition send (payload : Delivery) : method := fun self =>
  let address := get_value (py "address") (data payload) in
  if truthy address
     && equals_str (get_value (py "type") (data payload)) (py "register")
  then
    match hash_key address with
    | None => (Raise TypeError, self)
    | Some k =>
        let self := set_listen_funcs
                      (<[k := LogDelivery address]> (listen_funcs self)) self in
        (Ok tt, set_inputs (inputs self ++ [payload]) self)
    end
  else (Ok tt, set_inputs (inputs self ++ [payload]) self).



(** [EventBus.connect]: two [create_task] calls, then
    [self.daemon.start()], which raises [RuntimeError] on a thread that
    was started before. *)
Definition connect : method := fun self =>
  let self := set_tasks (tasks self ++ [ConnectThenListen]) self in
  let self := set_tasks (tasks self ++ [Ping]) self in
  if daemon_started self then (Raise RuntimeError, self)
  else (Ok tt, set_daemon_started true self).

(** [k in obj] for the values [json.loads] returns *)
Fixpoint is_substring (p s : pystr) : bool :=
  match starts_with p s with
  | Some _ => true
  | None => match s with [] => false | _ :: r => is_substring p r end
  end.

Definition contains (k : pystr) (obj : json) : result bool :=
  match obj with
  | JDict d => Ok (dict_contains k d)
  | JList l => Ok (existsb (fun v => equals_str v k) l)
  | JStr s => Ok (is_substring k s)
  | _ => Raise TypeError
  end.

(** [obj[k]] for a string [k] *)
Definition subscript (obj : json) (k : pystr) : result json :=
  match obj with
  | JDict d => match dict_get k d with Some v => Ok v | None => Raise KeyError end
  | _ => Raise TypeError
  end.

(** [func(body)] *)
Definition invoke (func : handler) (body : json) : method := fun self =>
  (Ok tt, set_calls (calls self ++ [(func, body)]) self).

(** [EventBus.listen] *)
Definition listen (obj : json) : method := fun self =>
  match contains (py "address") obj with
  | Ok false => (Ok tt, self)
  | Ok true =>
    match contains (py "body") obj with
    | Ok false => (Ok tt, self)
    | Ok true =>
      match subscript obj (py "address"), subscript obj (py "body") with
      | Ok address, Ok body =>
          match hash_key address with
          | None => (Raise TypeError, self)
          | Some k =>
              match listen_funcs self !! k with
              | Some func => invoke func body self
              | None => (Ok tt, self)
              end
          end
      | Ok _, Raise e => (Raise e, self)
      | Raise e, _ => (Raise e, self)
      | _, _ => (Unmodelled, self)
      end
    | Raise e => (Raise e, self)
    | _ => (Unmodelled, self)
    end
  | Raise e => (Raise e, self)
  | _ => (Unmodelled, self)
  end.

(** [EventBus.add_listen_func] *)
Definition add_listen_func (address : json) (func : handler) : method := fun self =>
  match hash_key address with
  | None => (Raise TypeError, self)
  | Some k => (Ok tt, set_listen_funcs (<[k := func]> (listen_funcs self)) self)
  end.

(** [EventBus.delete_listen_func]: the [KeyError] of [del] is caught and
    answered with a record to [LOGGER.error]. *)
Definition delete_listen_func (address : json) : method := fun self =>
  match hash_key address with
  | None => (Raise TypeError, self)
  | Some k =>
      match listen_funcs self !! k with
      | Some _ => (Ok tt, set_listen_funcs (delete k (listen_funcs self)) self)
      | None => (Ok tt, set_errors (S (errors self)) self)
      end
  end.

(** The branch [if incoming in done] of [EventBus._connect_then_listen]:
    the bytes of one [reader.read(100000)] are decoded and dispatched. *)
Definition on_incoming (byte : bytes) : method := fun self =>
  match deserialize byte with
  | Ok obj => listen obj self
  | Raise e => (Raise e, self)
  | Unmodelled => (Unmodelled, self)
  | OutOfFuel => (OutOfFuel, self)
  end.

(** The branch [if outgoing in done]: the oldest payload leaves the
    queue and its frame is written to the socket.  The branch is taken
    when [self.inputs.get()] has completed, that is on a queue that held
    a payload. *)
Definition on_outgoing : method := fun self =>
  match inputs self with
  | [] => (Ok tt, self)
  | msg :: rest =>
      let self := set_inputs rest self in
      match serialize msg with
      | Ok frame => (Ok tt, set_written (written self ++ frame) self)
      | Raise e => (Raise e, self)
      | Unmodelled => (Unmodelled, self)
      | OutOfFuel => (OutOfFuel, self)
      end
  end.

(** *** The loop of [_connect_then_listen] and sequences of calls *)

(** Two stateful steps in a row: the second runs when the first has
    returned, on the state the first has left. *)
Definition and_then {A B : Type} (m : EventBus -> result A * EventBus)
    (k : A -> EventBus -> result B * EventBus)
  : EventBus -> result B * EventBus := fun self =>
  match m self with
  | (Ok a, self') => k a self'
  | (Raise e, self') => (Raise e, self')
  | (Unmodelled, self') => (Unmodelled, self')
  | (OutOfFuel, self') => (OutOfFuel, self')
  end.

(** [self.send(p)] for each payload of a list, in order. *)
Fixpoint send_all (payloads : list Delivery) : method := fun self =>
  match payloads with
  | [] => (Ok tt, self)
  | p :: rest => and_then (send p) (fun _ => send_all rest) self
  end.

(** What [asyncio.wait] reports in one turn of the loop of
    [_connect_then_listen]: whether [outgoing] is done, the bytes of
    [incoming] when it is done, and whether [stop_sign] is done. *)
Record wake : Type := {
  outgoing_done : bool;
  incoming_done : option bytes;
  stop_done : bool
}.

(** One turn of the loop of [_connect_then_listen] after [asyncio.wait]:
    the three [if] in the order of the source.  The result tells whether
    the loop goes on ([break] gives [false]). *)
Definition iteration (w : wake) : EventBus -> result bool * EventBus :=
  and_then (if outgoing_done w then on_outgoing else fun self => (Ok tt, self))
    (fun _ =>
  and_then (match incoming_done w with
            | Some byte => on_incoming byte
            | None => fun self => (Ok tt, self)
            end)
    (fun _ self => (Ok (negb (stop_done w)), self))).

(** The loop of [_connect_then_listen] over the turns [ws], up to the
    first exception or [break]. *)
Fixpoint run (ws : list wake) : EventBus -> result bool * EventBus := fun self =>
  match ws with
  | [] => (Ok true, self)
  | w :: rest =>
      and_then (iteration w)
        (fun go self' => if go then run rest self' else (Ok false, self')) self
  end.

(* ===================================================================== *)
(** ** Vocabulary of the statements and of their proofs *)
(* ===================================================================== *)

(** What may follow a value in a text printed by [json.dumps]: the end
    of the text, a comma, or a closing bracket or brace. *)
Definition follow_ok (rest : pystr) : Prop :=
  match rest with
  | [] => True
  | c :: _ => (c = 44 \/ c = 93 \/ c = 125)%N
  end.

(** The text [json.dumps] prints after the first item of a list, and
    after the first pair of a dict. *)
Fixpoint dumps_items (l : list json) : pystr :=
  match l with
  | [] => [93%N]
  | y :: r => 44%N :: 32%N :: json_dumps y ++ dumps_items r
  end.

Fixpoint dumps_pairs (d : dict) : pystr :=
  match d with
  | [] => [125%N]
  | (k, y) :: r =>
      44%N :: 32%N :: encode_basestring_ascii k ++
      58%N :: 32%N :: json_dumps y ++ dumps_pairs r
  end.

(** The recursion budget that reading a printed value back takes. *)
Fixpoint fuel_of (v : json) : nat :=
  match v with
  | JList l =>
      S ((fix items (l : list json) : nat :=
            match l with
            | [] => O
            | x :: r => S (fuel_of x + items r)
            end) l)
  | JDict d =>
      S ((fix pairs (d : dict) : nat :=
            match d with
            | [] => O
            | kv :: r => S (fuel_of (snd kv) + pairs r)
            end) d)
  | _ => 1
  end.

Fixpoint fuel_of_items (l : list json) : nat :=
  match l with
  | [] => O
  | x :: r => S (fuel_of x + fuel_of_items r)
  end.

Fixpoint fuel_of_pairs (d : dict) : nat :=
  match d with
  | [] => O
  | kv :: r => S (fuel_of (snd kv) + fuel_of_pairs r)
  end.

(** Reading back with enough budget, whatever follows the value. *)
Definition reads_back (v : json) : Prop :=
  wf_json v -> forall (n : nat) (rest : pystr),
  (fuel_of v <= n)%nat -> follow_ok rest ->
  scan_once n (json_dumps v ++ rest) = Ok (v, rest).

(** Text within ASCII. *)
Definition is_ascii (s : pystr) : Prop := Forall (fun c => (c < 128)%N) s.

(** One optional field of [self.data]: present when its argument is
    truthy. *)
Definition field (k : string) (v : json) : dict :=
  if truthy v then [(py k, v)] else [].

(** The arguments of [Delivery.__init__] hold well-formed data. *)
Definition wf_args (type : pystr) (address replyAddress : option pystr)
    (header body : option dict) : Prop :=
  wf_str type /\ wf_json (str_arg address) /\ wf_json (str_arg replyAddress)
  /\ wf_json (dict_arg header) /\ wf_json (dict_arg body).

(** A decision procedure for [wf_json]. *)
Fixpoint wf_jsonb (v : json) : bool :=
  match v with
  | JNull | JBool _ | JInt _ => true
  | JStr s => forallb is_scalar s
  | JList l => forallb wf_jsonb l
  | JDict d =>
      bool_decide (NoDup (List.map fst d))
      && forallb (fun kv => forallb is_scalar (fst kv) && wf_jsonb (snd kv)) d
  end.

(** A decision procedure for [wf_args]. *)
Definition wf_argsb (type : pystr) (address replyAddress : option pystr)
    (header body : option dict) : bool :=
  forallb is_scalar type && wf_jsonb (str_arg address)
  && wf_jsonb (str_arg replyAddress)
  && wf_jsonb (dict_arg header) && wf_jsonb (dict_arg body).


(** A guarded [connect]: on an instance whose thread is started it
    creates no further task. *)
Definition connect_is_guarded : Prop :=
  forall self, daemon_started self = true ->
    tasks (snd (connect self)) = tasks self.

(** Two deliveries to the address ["news"]: the first one. *)
Definition first_delivery : Delivery :=
  Delivery_init (py "delivery") (Some (py "news")) None None
    (Some [(py "msg", JStr (py "hi"))]).

(** The second delivery. *)
Definition second_delivery : Delivery :=
  Delivery_init (py "delivery") (Some (py "news")) None None
    (Some [(py "msg", JStr (py "bye"))]).

(** [EventBus("localhost", 7000)] *)
Definition new_bus : EventBus := EventBus_init (py "localhost") 7000.

(** An instance with a caller's handler for the address. *)
Definition news_listener : EventBus :=
  snd (add_listen_func (JStr (py "news")) (Callback 0) new_bus).



(** The concatenated frames of a list of payloads. *)
Fixpoint serialize_all (payloads : list Delivery) : result bytes :=
  match payloads with
  | [] => Ok []
  | p :: rest =>
      bind (serialize p) (fun frame =>
      bind (serialize_all rest) (fun frames => Ok (frame ++ frames)))
  end.

(** [connect] called [n] times by a caller that goes on after an
    exception. *)
Fixpoint connect_times (n : nat) (self : EventBus) : EventBus :=
  match n with
  | O => self
  | S n' => snd (connect (connect_times n' self))
  end.

(** The turn in which [outgoing] alone is done. *)
Definition outgoing_wake : wake :=
  {| outgoing_done := true; incoming_done := None; stop_done := false |}.

(** What the loop may have done between two states: the first [n]
    payloads of the queue have left it and their frames were written in
    that order, at most [k] handler calls were added, and the listener
    table is the same. *)
Definition progressed (k : nat) (self self' : EventBus) : Prop :=
  exists (n : nat) (frames : bytes) (new_calls : list (handler * json)),
    n <= length (inputs self)
    /\ inputs self' = drop n (inputs self)
    /\ serialize_all (take n (inputs self)) = Ok frames
    /\ written self' = written self ++ frames
    /\ listen_funcs self' = listen_funcs self
    /\ calls self' = calls self ++ new_calls
    /\ length new_calls <= k.

(* ===================================================================== *)
(** ** The embedding at work *)
(* ===================================================================== *)

Section examples.

(** [Delivery().serialize()] is the four bytes of the length 16 and then
    the sixteen bytes of the text of the dict with the one key [type]. *)
Example serialize_ping :
  serialize Delivery_default
  = Ok ([x00; x00; x00; x10] ++
        List.map byte_of_N (py "{") ++ [x22] ++ List.map byte_of_N (py "type")
        ++ [x22] ++ List.map byte_of_N (py ": ") ++ [x22]
        ++ List.map byte_of_N (py "ping") ++ [x22]
        ++ List.map byte_of_N (py "}")).
Proof. vm_compute. reflexivity. Qed.

(** A character outside ASCII travels as an escape, one outside the
    basic plane as a pair of escapes. *)
Example json_dumps_escapes :
  json_dumps (JStr [233; 128512]%N)
  = [34%N] ++ py "\u00e9\ud83d\ude00" ++ [34%N].
Proof. vm_compute. reflexivity. Qed.

(** A repeated key keeps its first place and its last value. *)
Example json_loads_repeated_key :
  json_loads ([123; 34; 97; 34; 58; 49; 44; 34; 98; 34; 58; 50; 44;
               34; 97; 34; 58; 51; 125]%N)
  = Ok (JDict [(py "a", JInt 3); (py "b", JInt 2)]).
Proof. vm_compute. reflexivity. Qed.

(** Leading zeros, a trailing comma and text after the value are
    refused; a number with a fraction is outside the model. *)
Example json_loads_refusals :
  json_loads (py "01") = Raise JSONDecodeError
  /\ json_loads (py "[1,]") = Raise JSONDecodeError
  /\ json_loads (py "{} {}") = Raise JSONDecodeError
  /\ json_loads (py "[1.5]") = Unmodelled.
Proof. repeat split; vm_compute; reflexivity. Qed.

(** Overlong forms and encoded surrogates are not UTF-8. *)
Example bytes_decode_strict :
  bytes_decode [xc3; xa9] = Ok [233%N]
  /\ bytes_decode [xc0; x80] = Raise UnicodeDecodeError
  /\ bytes_decode [xed; xa0; x80] = Raise UnicodeDecodeError.
Proof. repeat split; vm_compute; reflexivity. Qed.

(** The end-to-end scenario of a registration and a delivery: after
    [send] of a register envelope for ["news"], a delivery to ["news"]
    reaches the logging handler with its body. *)
Example register_then_deliver :
  let bus := snd (send (Delivery_init (py "register") (Some (py "news"))
                          None None None) new_bus) in
  calls (snd (listen (JDict [(py "type", JStr (py "delivery"));
                             (py "address", JStr (py "news"));
                             (py "body", JDict [(py "msg", JStr (py "hi"))])])
                bus))
  = [(LogDelivery (JStr (py "news")), JDict [(py "msg", JStr (py "hi"))])].
Proof. vm_compute. reflexivity. Qed.

(** The later of two handlers registered for one address is the one that
    is called. *)
Example last_registration_wins :
  let bus := snd (add_listen_func (JStr (py "a")) (Callback 1) new_bus) in
  let bus := snd (add_listen_func (JStr (py "a")) (Callback 2) bus) in
  calls (snd (listen (JDict [(py "address", JStr (py "a"));
                             (py "body", JInt 7)]) bus))
  = [(Callback 2, JInt 7)].
Proof. vm_compute. reflexivity. Qed.
End examples.

(* ===================================================================== *)
(** ** Facts about the object model *)
(* ===================================================================== *)

Section object_model_facts.

Lemma str_eqb_eq (a b : pystr) : str_eqb a b = true <-> a = b.
Proof.
  revert b. induction a as [|x a IH]; intros [|y b]; simpl; split;
    try congruence; try reflexivity.
  - intros H. apply andb_true_iff in H as [Hxy Hab].
    apply N.eqb_eq in Hxy. apply IH in Hab. congruence.
  - intros H. injection H as -> ->. rewrite N.eqb_refl. simpl. now apply IH.
Qed.

Lemma str_eqb_refl (a : pystr) : str_eqb a a = true.
Proof. now apply str_eqb_eq. Qed.


Lemma dict_set_fresh (k : pystr) (v : json) (d : dict) :
  k ∉ List.map fst d -> dict_set k v d = d ++ [(k, v)].
Proof.
  induction d as [|[k' v'] d IH]; simpl; intros H; [reflexivity|].
  apply not_elem_of_cons in H as [Hne Hnin].
  destruct (str_eqb k' k) eqn:E.
  - apply str_eqb_eq in E. congruence.
  - now rewrite IH.
Qed.

Lemma dict_of_pairs_from (pairs acc : dict) :
  NoDup (List.map fst (acc ++ pairs)) ->
  fold_left (fun d kv => dict_set (fst kv) (snd kv) d) pairs acc = acc ++ pairs.
Proof.
  revert acc. induction pairs as [|[k v] pairs IH]; intros acc H; simpl.
  - now rewrite app_nil_r.
  - rewrite dict_set_fresh.
    + rewrite IH; rewrite <- app_assoc; [reflexivity|exact H].
    + rewrite List.map_app in H. simpl in H.
      apply NoDup_app in H as (_ & H & _).
      intros Hin. apply (H k Hin). now left.
Qed.

(** [dict(pairs)] is [pairs] itself when no key comes twice. *)
Lemma dict_of_pairs_nodup (pairs : dict) :
  NoDup (List.map fst pairs) -> dict_of_pairs pairs = pairs.
Proof. intros H. unfold dict_of_pairs. now rewrite dict_of_pairs_from. Qed.

Lemma dict_contains_get (k : pystr) (d : dict) :
  dict_contains k d = true <-> exists v, dict_get k d = Some v.
Proof.
  induction d as [|[k' v'] d IH]; simpl.
  - split; [discriminate|]. intros [v H]. discriminate.
  - destruct (str_eqb k' k); simpl.
    + split; [eauto|reflexivity].
    + exact IH.
Qed.

Lemma dict_contains_false (k : pystr) (d : dict) :
  dict_contains k d = false <-> dict_get k d = None.
Proof.
  induction d as [|[k' v'] d IH]; simpl.
  - split; reflexivity.
  - destruct (str_eqb k' k); simpl.
    + split; discriminate.
    + exact IH.
Qed.

End object_model_facts.

(* ===================================================================== *)
(** ** Facts about the library calls *)
(* ===================================================================== *)

(** *** Strings: [scanstring] undoes [encode_basestring_ascii] *)

Section string_codec.
Local Open Scope N_scope.

#[local] Ltac Zify.zify_post_hook ::= Z.to_euclidean_division_equations.

Ltac ncases :=
  repeat match goal with
  | |- context [N.eqb ?a ?b] => destruct (N.eqb_spec a b)
  | |- context [N.ltb ?a ?b] => destruct (N.ltb_spec a b)
  | |- context [N.leb ?a ?b] => destruct (N.leb_spec a b)
  end.

Lemma land_15 (n : N) : N.land n 15 = n mod 16.
Proof. change 15 with (N.ones 4). now rewrite N.land_ones. Qed.

Lemma hexval_hexdigit (n : N) : n < 16 -> hexval (hexdigit n) = Some n.
Proof.
  intros H. unfold hexval, hexdigit, in_range.
  ncases; simpl; try lia; f_equal; lia.
Qed.

Lemma hex4_format_04x (c : N) :
  c < 65536 ->
  exists h1 h2 h3 h4,
    format_04x c = [h1; h2; h3; h4] /\ hex4 h1 h2 h3 h4 = Some c.
Proof.
  intros H. unfold format_04x. do 4 eexists. split; [reflexivity|].
  unfold hex4. rewrite !land_15, !N.shiftr_div_pow2.
  rewrite !hexval_hexdigit by (apply N.mod_upper_bound; lia).
  f_equal. change (2 ^ 12) with 4096. change (2 ^ 8) with 256.
  change (2 ^ 4) with 16. lia.
Qed.

Lemma scanstring_plain (c : N) (r : pystr) :
  c <> 34 -> c <> 92 -> 32 <= c ->
  scanstring (c :: r) = cons_char c (scanstring r).
Proof.
  intros H1 H2 H3. cbn [scanstring].
  destruct (N.eqb_spec c 34); [contradiction|].
  destruct (N.eqb_spec c 92); [contradiction|].
  destruct (N.ltb_spec c 32); [lia|]. reflexivity.
Qed.

Lemma scanstring_backslash (e x : N) (r : pystr) :
  e <> 117 -> backslash e = Some x ->
  scanstring (92 :: e :: r) = cons_char x (scanstring r).
Proof.
  intros H1 H2. cbn [scanstring]. change (92 =? 34) with false.
  change (92 =? 92) with true. cbv iota.
  destruct (N.eqb_spec e 117); [contradiction|]. now rewrite H2.
Qed.

Lemma scanstring_u4 (h1 h2 h3 h4 uni : N) (r : pystr) :
  hex4 h1 h2 h3 h4 = Some uni ->
  in_range 0xD800 0xDBFF uni = false ->
  scanstring (92 :: 117 :: h1 :: h2 :: h3 :: h4 :: r)
  = cons_char uni (scanstring r).
Proof.
  intros H1 H2. cbn [scanstring]. change (92 =? 34) with false.
  change (92 =? 92) with true. change (117 =? 117) with true. cbv iota.
  now rewrite H1, H2.
Qed.

Lemma scanstring_pair (h1 h2 h3 h4 g1 g2 g3 g4 u1 u2 : N) (r : pystr) :
  hex4 h1 h2 h3 h4 = Some u1 ->
  in_range 0xD800 0xDBFF u1 = true ->
  hex4 g1 g2 g3 g4 = Some u2 ->
  in_range 0xDC00 0xDFFF u2 = true ->
  scanstring (92 :: 117 :: h1 :: h2 :: h3 :: h4 ::
              92 :: 117 :: g1 :: g2 :: g3 :: g4 :: r)
  = cons_char (0x10000 + N.lor (N.shiftl (u1 - 0xD800) 10) (u2 - 0xDC00))
      (scanstring r).
Proof.
  intros H1 H2 H3 H4. cbn [scanstring]. change (92 =? 34) with false.
  change (92 =? 92) with true. change (117 =? 117) with true.
  cbv iota. rewrite H1, H2. cbn [andb]. cbv iota. now rewrite H3, H4.
Qed.

Lemma land_shiftl_low (a b k : N) : b < 2 ^ k -> N.land (N.shiftl a k) b = 0.
Proof.
  intros H. apply N.bits_inj. intros i. rewrite N.land_spec, N.bits_0.
  destruct (N.lt_ge_cases i k) as [Hi|Hi].
  - now rewrite N.shiftl_spec_low.
  - replace (N.testbit b i) with false; [apply andb_false_r|].
    symmetry. destruct (N.eq_dec b 0) as [->|Hb]; [apply N.bits_0|].
    apply N.bits_above_log2. apply N.log2_lt_pow2; [lia|].
    eapply N.lt_le_trans; [exact H|]. apply N.pow_le_mono_r; lia.
Qed.

Lemma lor_shiftl_add (a b k : N) :
  b < 2 ^ k -> N.lor (N.shiftl a k) b = a * 2 ^ k + b.
Proof.
  intros H. rewrite <- N.lxor_lor by now apply land_shiftl_low.
  rewrite <- N.add_nocarry_lxor by now apply land_shiftl_low.
  now rewrite N.shiftl_mul_pow2.
Qed.

Lemma land_1023 (n : N) : N.land n 0x3FF = n mod 1024.
Proof. change 0x3FF with (N.ones 10). now rewrite N.land_ones. Qed.

Lemma high_surrogate_of (n : N) :
  n < 0x100000 ->
  N.lor 0xD800 (N.land (N.shiftr n 10) 0x3FF) = 0xD800 + n / 1024.
Proof.
  intros H. rewrite land_1023, N.shiftr_div_pow2. change (2 ^ 10) with 1024.
  change 0xD800 with (N.shiftl 54 10).
  rewrite lor_shiftl_add by (apply N.mod_upper_bound; discriminate).
  rewrite N.shiftl_mul_pow2. change (2 ^ 10) with 1024. lia.
Qed.

Lemma low_surrogate_of (n : N) :
  N.lor 0xDC00 (N.land n 0x3FF) = 0xDC00 + n mod 1024.
Proof.
  rewrite land_1023. change 0xDC00 with (N.shiftl 55 10).
  rewrite lor_shiftl_add by (apply N.mod_upper_bound; discriminate).
  rewrite N.shiftl_mul_pow2. reflexivity.
Qed.

Lemma join_surrogates (n : N) :
  n < 0x100000 ->
  0x10000 + N.lor (N.shiftl (0xD800 + n / 1024 - 0xD800) 10)
                  (0xDC00 + n mod 1024 - 0xDC00)
  = 0x10000 + n.
Proof.
  intros H. replace (0xD800 + n / 1024 - 0xD800) with (n / 1024) by lia.
  replace (0xDC00 + n mod 1024 - 0xDC00) with (n mod 1024) by lia.
  rewrite lor_shiftl_add by (apply N.mod_upper_bound; discriminate).
  change (2 ^ 10) with 1024. lia.
Qed.

(** Scanning the escape of one character of a text gives the character
    back. *)
Lemma scanstring_escape_char (c : N) (r : pystr) :
  is_scalar c = true ->
  scanstring (escape_char c ++ r) = cons_char c (scanstring r).
Proof.
  unfold is_scalar, is_surrogate. intros Hc.
  apply andb_true_iff in Hc as [Hlt Hns]. apply N.ltb_lt in Hlt.
  apply negb_true_iff in Hns.
  unfold escape_char.
  destruct (N.eqb_spec c 34) as [->|N34]; [reflexivity|].
  destruct (N.eqb_spec c 92) as [->|N92]; [reflexivity|].
  destruct (N.eqb_spec c 8) as [->|N8]; [reflexivity|].
  destruct (N.eqb_spec c 12) as [->|N12]; [reflexivity|].
  destruct (N.eqb_spec c 10) as [->|N10]; [reflexivity|].
  destruct (N.eqb_spec c 13) as [->|N13]; [reflexivity|].
  destruct (N.eqb_spec c 9) as [->|N9]; [reflexivity|].
  destruct (in_range 32 126 c) eqn:Hp.
  { unfold in_range in Hp. apply andb_true_iff in Hp as [Hp _].
    apply N.leb_le in Hp. now apply scanstring_plain. }
  destruct (N.ltb_spec c 0x10000) as [Hs|Hb].
  - destruct (hex4_format_04x c Hs) as (h1 & h2 & h3 & h4 & -> & Hh).
    apply scanstring_u4; [exact Hh|].
    unfold in_range in *. apply andb_false_iff in Hns as [H|H];
      [apply N.leb_gt in H|apply N.leb_gt in H]; apply andb_false_iff;
      [left|right]; apply N.leb_gt; lia.
  - set (n := c - 0x10000). assert (Hn : n < 0x100000) by (unfold n; lia).
    cbv zeta. rewrite high_surrogate_of, low_surrogate_of by exact Hn.
    assert (H1 : 0xD800 + n / 1024 < 65536) by lia.
    assert (H2 : 0xDC00 + n mod 1024 < 65536) by lia.
    destruct (hex4_format_04x _ H1) as (h1 & h2 & h3 & h4 & -> & Hh).
    destruct (hex4_format_04x _ H2) as (g1 & g2 & g3 & g4 & -> & Hg).
    cbn [app]. erewrite scanstring_pair; eauto.
    + rewrite join_surrogates by exact Hn. f_equal. unfold n. lia.
    + unfold in_range. apply andb_true_iff. split; apply N.leb_le; lia.
    + unfold in_range. apply andb_true_iff. split; apply N.leb_le; lia.
Qed.

Lemma cons_char_ok (c : N) (s r : pystr) :
  cons_char c (Ok (s, r)) = Ok (c :: s, r).
Proof. reflexivity. Qed.

(** [scanstring] undoes [encode_basestring_ascii]. *)
Lemma scanstring_escape (s r : pystr) :
  wf_str s ->
  scanstring (flat_map escape_char s ++ 34 :: r) = Ok (s, r).
Proof.
  induction 1 as [|c s Hc Hs IH]; [reflexivity|].
  cbn [flat_map]. rewrite <- app_assoc.
  rewrite scanstring_escape_char by exact Hc. now rewrite IH.
Qed.
End string_codec.

(** *** Numbers: the scanner reads back what [repr] prints *)

Section number_codec.
Local Open Scope N_scope.

Lemma follow_ok_no_digit (rest : pystr) :
  follow_ok rest -> scan_digits rest = (Decimal.Nil, rest).
Proof.
  destruct rest as [|c r]; [reflexivity|].
  intros [-> | [-> | ->]]; reflexivity.
Qed.

Lemma follow_ok_no_float (rest : pystr) :
  follow_ok rest -> float_follows rest = false.
Proof.
  destruct rest as [|c [|d r]]; try reflexivity;
    intros [-> | [-> | ->]]; reflexivity.
Qed.

Lemma scan_digits_chars (d : Decimal.uint) (rest : pystr) :
  follow_ok rest -> scan_digits (chars_of_uint d ++ rest) = (d, rest).
Proof.
  intros H. induction d; cbn [chars_of_uint app];
    [now apply follow_ok_no_digit|..];
    cbn [scan_digits]; rewrite IHd; reflexivity.
Qed.

Lemma to_uint_normal (p : positive) :
  Decimal.unorm (Pos.to_uint p) = Pos.to_uint p.
Proof.
  rewrite <- DecimalPos.Unsigned.to_of, DecimalPos.Unsigned.of_to.
  reflexivity.
Qed.

Lemma to_uint_no_leading_zero (p : positive) (r : Decimal.uint) :
  Pos.to_uint p <> Decimal.D0 r.
Proof.
  intros H. pose proof (to_uint_normal p) as Hn. rewrite H in Hn.
  rewrite unorm_D0 in Hn.
  destruct r; [now apply (DecimalPos.Unsigned.to_uint_nonzero p)|..];
    match type of Hn with Decimal.unorm ?u = _ =>
      assert (Hu : u <> Decimal.Nil) by discriminate;
      pose proof (nb_digits_unorm u Hu) as Hl
    end;
    rewrite Hn in Hl; simpl in Hl; apply Nat.nle_succ_diag_l in Hl;
    exact Hl.
Qed.

(** The first digit of a positive number is not zero. *)
Lemma chars_of_to_uint_head (p : positive) :
  exists c t, chars_of_uint (Pos.to_uint p) = c :: t /\ in_range 49 57 c = true.
Proof.
  pose proof (to_uint_no_leading_zero p) as H0.
  pose proof (DecimalPos.Unsigned.to_uint_nonnil p) as Hn.
  destruct (Pos.to_uint p) as [|r|r|r|r|r|r|r|r|r|r]; cbn [chars_of_uint];
    [contradiction | exfalso; now apply (H0 r) | ..];
    do 2 eexists; (split; [reflexivity|reflexivity]).
Qed.

Lemma match_integer_digits (neg : bool) (p : positive) (rest : pystr) :
  follow_ok rest ->
  match_integer neg (chars_of_uint (Pos.to_uint p) ++ rest)
  = Some (Ok (JInt (if neg then Zneg p else Zpos p), rest)).
Proof.
  intros H. destruct (chars_of_to_uint_head p) as (c & t & E & Hc).
  pose proof (scan_digits_chars (Pos.to_uint p) rest H) as Hs.
  rewrite E in *. cbn [app] in *. unfold match_integer.
  unfold in_range in Hc. apply andb_true_iff in Hc as [H1 H2].
  apply N.leb_le in H1. apply N.leb_le in H2.
  destruct (N.eqb_spec c 48); [lia|].
  unfold is_digit, in_range.
  destruct (N.leb_spec 48 c); [|lia]. destruct (N.leb_spec c 57); [|lia].
  cbn [andb]. rewrite Hs. unfold finish_number.
  rewrite follow_ok_no_float by exact H.
  unfold N.of_uint. rewrite DecimalPos.Unsigned.of_to.
  destruct neg; reflexivity.
Qed.

Lemma match_number_repr (z : Z) (rest : pystr) :
  follow_ok rest ->
  match_number (int_repr z ++ rest) = Some (Ok (JInt z, rest)).
Proof.
  intros H. destruct z as [|p|p]; cbn [int_repr app].
  - unfold match_number, match_integer. change (48 =? 45) with false.
    change (48 =? 48) with true. cbv iota. unfold finish_number.
    now rewrite follow_ok_no_float.
  - pose proof (match_integer_digits false p rest H) as Hm.
    destruct (chars_of_to_uint_head p) as (c & t & E & Hc).
    rewrite E in *. cbn [app] in *. unfold match_number.
    unfold in_range in Hc. apply andb_true_iff in Hc as [H1 H2].
    apply N.leb_le in H1. destruct (N.eqb_spec c 45); [lia|]. exact Hm.
  - unfold match_number. change (45 =? 45) with true. cbv iota.
    now apply (match_integer_digits true).
Qed.

(** The first character of a printed integer: a digit or a minus sign. *)
Lemma int_repr_head (z : Z) :
  exists c t, int_repr z = c :: t /\ (in_range 48 57 c = true \/ c = 45).
Proof.
  destruct z as [|p|p]; cbn [int_repr].
  - do 2 eexists. split; [reflexivity|]. now left.
  - destruct (chars_of_to_uint_head p) as (c & t & E & Hc).
    exists c, t. split; [exact E|]. left.
    unfold in_range in *. apply andb_true_iff in Hc as [H1 H2].
    apply N.leb_le in H1. apply andb_true_iff. split; [|exact H2].
    apply N.leb_le. lia.
  - do 2 eexists. split; [reflexivity|]. now right.
Qed.

Lemma starts_with_head_neq (x c : N) (p s : pystr) :
  x <> c -> starts_with (x :: p) (c :: s) = None.
Proof.
  intros H. cbn [starts_with]. now destruct (N.eqb_spec x c).
Qed.

Lemma scan_atom_int (z : Z) (rest : pystr) :
  follow_ok rest -> scan_atom (int_repr z ++ rest) = Ok (JInt z, rest).
Proof.
  intros H. pose proof (match_number_repr z rest H) as Hm.
  destruct (int_repr_head z) as (c & t & E & Hc). rewrite E in *.
  cbn [app] in *. unfold scan_atom, lit_null, lit_true, lit_false.
  assert (c <> 110 /\ c <> 116 /\ c <> 102) as (N1 & N2 & N3).
  { destruct Hc as [Hc| ->]; [|repeat split; discriminate].
    unfold in_range in Hc. apply andb_true_iff in Hc as [H1 H2].
    apply N.leb_le in H2. repeat split; lia. }
  rewrite !starts_with_head_neq by congruence. now rewrite Hm.
Qed.
End number_codec.

(** *** Values: [json.loads] undoes [json.dumps] *)

Section value_codec.
Local Open Scope N_scope.

Lemma json_dumps_list (x : json) (r : list json) :
  json_dumps (JList (x :: r)) = 91 :: json_dumps x ++ dumps_items r.
Proof. reflexivity. Qed.

Lemma json_dumps_dict (k : pystr) (x : json) (r : dict) :
  json_dumps (JDict ((k, x) :: r))
  = 123 :: encode_basestring_ascii k ++ 58 :: 32 :: json_dumps x ++ dumps_pairs r.
Proof. reflexivity. Qed.

Lemma fuel_of_list (l : list json) : fuel_of (JList l) = S (fuel_of_items l).
Proof. reflexivity. Qed.

Lemma fuel_of_dict (d : dict) : fuel_of (JDict d) = S (fuel_of_pairs d).
Proof. reflexivity. Qed.

Lemma wf_json_list (l : list json) : wf_json (JList l) <-> Forall wf_json l.
Proof.
  cbn [wf_json]. induction l as [|x l IH].
  - split; [constructor|trivial].
  - rewrite Forall_cons. now rewrite IH.
Qed.

Lemma wf_json_dict (d : dict) :
  wf_json (JDict d) <->
  NoDup (List.map fst d) /\
  Forall (fun kv => wf_str (fst kv) /\ wf_json (snd kv)) d.
Proof.
  cbn [wf_json]. apply and_iff_compat_l. induction d as [|x d IH].
  - split; [constructor|trivial].
  - rewrite Forall_cons. now rewrite IH.
Qed.

(** A printed value opens with a character that is neither whitespace
    nor a closing bracket. *)
Lemma json_dumps_head (v : json) :
  exists c t, json_dumps v = c :: t /\ is_ws c = false /\ c <> 93.
Proof.
  destruct v as [|[|]|z|s|[|x r]|[|[k x] r]];
    try (do 2 eexists; split; [reflexivity|split; [reflexivity|discriminate]]).
  destruct (int_repr_head z) as (c & t & E & Hc). exists c, t.
  split; [exact E|]. destruct Hc as [Hc| ->]; [|split; [reflexivity|discriminate]].
  unfold in_range in Hc. apply andb_true_iff in Hc as [H1 H2].
  apply N.leb_le in H1. apply N.leb_le in H2. unfold is_ws.
  split; [|lia].
  destruct (N.eqb_spec c 32); [lia|]. destruct (N.eqb_spec c 9); [lia|].
  destruct (N.eqb_spec c 10); [lia|]. destruct (N.eqb_spec c 13); [lia|].
  reflexivity.
Qed.

Lemma skip_ws_dumps (v : json) (rest : pystr) :
  skip_ws (json_dumps v ++ rest) = json_dumps v ++ rest.
Proof.
  destruct (json_dumps_head v) as (c & t & -> & Hc & _).
  cbn [app skip_ws]. now rewrite Hc.
Qed.

Lemma follow_ok_items (r : list json) (rest : pystr) :
  follow_ok (dumps_items r ++ rest).
Proof. destruct r; cbn; auto. Qed.

Lemma follow_ok_pairs (r : dict) (rest : pystr) :
  follow_ok (dumps_pairs r ++ rest).
Proof. destruct r as [|[k y] r]; cbn; auto. Qed.

Lemma scan_once_string (n : nat) (r : pystr) :
  scan_once (S n) (34 :: r)
  = bind (scanstring r) (fun p => Ok (JStr (fst p), snd p)).
Proof. reflexivity. Qed.

Lemma scan_once_atom (n : nat) (c : N) (r : pystr) :
  c <> 34 -> c <> 123 -> c <> 91 ->
  scan_once (S n) (c :: r) = scan_atom (c :: r).
Proof.
  intros H1 H2 H3. cbn [scan_once].
  destruct (N.eqb_spec c 34); [contradiction|].
  destruct (N.eqb_spec c 123); [contradiction|].
  destruct (N.eqb_spec c 91); [contradiction|]. reflexivity.
Qed.

Lemma scan_once_list (n : nat) (c : N) (r : pystr) :
  is_ws c = false -> c <> 93 ->
  scan_once (S n) (91 :: c :: r)
  = bind (array_loop n (c :: r)) (fun p => Ok (JList (fst p), snd p)).
Proof.
  intros H1 H2. cbn [scan_once]. change (91 =? 34) with false.
  change (91 =? 123) with false. change (91 =? 91) with true. cbv iota.
  cbn [skip_ws]. rewrite H1. now destruct (N.eqb_spec c 93).
Qed.

Lemma scan_once_dict (n : nat) (r : pystr) :
  scan_once (S n) (123 :: 34 :: r)
  = bind (object_loop n r) (fun p => Ok (JDict (dict_of_pairs (fst p)), snd p)).
Proof. reflexivity. Qed.

Lemma array_loop_last (n : nat) (s r : pystr) (v : json) :
  scan_once n s = Ok (v, 93 :: r) -> array_loop (S n) s = Ok ([v], r).
Proof. intros H. cbn [array_loop]. rewrite H. reflexivity. Qed.

Lemma array_loop_more (n : nat) (s r r' : pystr) (v : json) (vs : list json) :
  scan_once n s = Ok (v, 44 :: 32 :: r) ->
  array_loop n (skip_ws r) = Ok (vs, r') ->
  array_loop (S n) s = Ok (v :: vs, r').
Proof.
  intros H1 H2. cbn [array_loop]. rewrite H1. cbn [bind snd fst].
  change (skip_ws (44 :: 32 :: r)) with (44 :: 32 :: r).
  change (44 =? 93) with false. change (44 =? 44) with true. cbv iota.
  change (skip_ws (32 :: r)) with (skip_ws r). rewrite H2. reflexivity.
Qed.

Lemma object_loop_last (n : nat) (s s1 r k : pystr) (v : json) :
  scanstring s = Ok (k, 58 :: 32 :: s1) ->
  scan_once n (skip_ws s1) = Ok (v, 125 :: r) ->
  object_loop (S n) s = Ok ([(k, v)], r).
Proof.
  intros H1 H2. cbn [object_loop]. rewrite H1. cbn [bind snd fst].
  change (skip_ws (58 :: 32 :: s1)) with (58 :: 32 :: s1).
  change (58 =? 58) with true. cbv iota.
  change (skip_ws (32 :: s1)) with (skip_ws s1). rewrite H2. reflexivity.
Qed.

Lemma object_loop_more (n : nat) (s s1 r r' k : pystr) (v : json) (ps : dict) :
  scanstring s = Ok (k, 58 :: 32 :: s1) ->
  scan_once n (skip_ws s1) = Ok (v, 44 :: 32 :: 34 :: r) ->
  object_loop n r = Ok (ps, r') ->
  object_loop (S n) s = Ok ((k, v) :: ps, r').
Proof.
  intros H1 H2 H3. cbn [object_loop]. rewrite H1. cbn [bind snd fst].
  change (skip_ws (58 :: 32 :: s1)) with (58 :: 32 :: s1).
  change (58 =? 58) with true. cbv iota.
  change (skip_ws (32 :: s1)) with (skip_ws s1). rewrite H2.
  cbn [bind snd fst].
  change (skip_ws (44 :: 32 :: 34 :: r)) with (44 :: 32 :: 34 :: r).
  change (44 =? 125) with false. change (44 =? 44) with true. cbv iota.
  change (skip_ws (32 :: 34 :: r)) with (34 :: r).
  change (34 =? 34) with true. cbv iota. rewrite H3. reflexivity.
Qed.

Lemma array_loop_dumps (r : list json) :
  Forall reads_back r -> Forall wf_json r ->
  forall (x : json) (n : nat) (rest : pystr),
  reads_back x -> wf_json x ->
  (fuel_of_items (x :: r) <= n)%nat -> follow_ok rest ->
  array_loop n (json_dumps x ++ dumps_items r ++ rest) = Ok (x :: r, rest).
Proof.
  induction r as [|y r IH]; intros HP Hwf x n rest Hx Hwx Hn Hrest;
    cbn [fuel_of_items] in Hn; (destruct n as [|m]; [lia|]).
  - apply array_loop_last. apply Hx; [exact Hwx|lia|cbn; auto].
  - apply Forall_cons in HP as [Hy HP]. apply Forall_cons in Hwf as [Hwy Hwf].
    apply (array_loop_more m _ ((json_dumps y ++ dumps_items r) ++ rest)).
    + apply (Hx Hwx m (dumps_items (y :: r) ++ rest)); [lia|cbn; auto].
    + rewrite <- app_assoc, skip_ws_dumps.
      apply (IH HP Hwf y m rest Hy Hwy); [|exact Hrest].
      cbn [fuel_of_items]. lia.
Qed.

Lemma object_loop_dumps (r : dict) :
  Forall (fun kv => reads_back (snd kv)) r ->
  Forall (fun kv => wf_str (fst kv) /\ wf_json (snd kv)) r ->
  forall (k : pystr) (x : json) (n : nat) (rest : pystr),
  reads_back x -> wf_str k -> wf_json x ->
  (fuel_of_pairs ((k, x) :: r) <= n)%nat -> follow_ok rest ->
  object_loop n (flat_map escape_char k ++
                 34 :: 58 :: 32 :: json_dumps x ++ dumps_pairs r ++ rest)
  = Ok ((k, x) :: r, rest).
Proof.
  induction r as [|[k' y] r IH]; intros HP Hwf k x n rest Hx Hwk Hwx Hn Hrest;
    cbn [fuel_of_pairs snd] in Hn; (destruct n as [|m]; [lia|]).
  - apply (object_loop_last m _ (json_dumps x ++ dumps_pairs [] ++ rest)).
    + now apply scanstring_escape.
    + rewrite skip_ws_dumps.
      apply (Hx Hwx m (dumps_pairs [] ++ rest)); [lia|cbn; auto].
  - apply Forall_cons in HP as [Hy HP].
    apply Forall_cons in Hwf as [[Hwk' Hwy] Hwf]. cbn [snd fst] in *.
    apply (object_loop_more m _
             (json_dumps x ++ dumps_pairs ((k', y) :: r) ++ rest)
             ((flat_map escape_char k' ++
               34 :: 58 :: 32 :: json_dumps y ++ dumps_pairs r) ++ rest)).
    + now apply scanstring_escape.
    + rewrite skip_ws_dumps.
      replace (44 :: 32 :: 34 :: (flat_map escape_char k' ++
                 34 :: 58 :: 32 :: json_dumps y ++ dumps_pairs r) ++ rest)
        with (dumps_pairs ((k', y) :: r) ++ rest).
      * apply (Hx Hwx m); [lia|cbn; auto].
      * cbn [dumps_pairs encode_basestring_ascii app].
        now rewrite <- !app_assoc.
    + rewrite <- !app_assoc. cbn [app]. rewrite <- app_assoc.
      apply (IH HP Hwf k' y m rest Hy Hwk' Hwy); [|exact Hrest].
      cbn [fuel_of_pairs snd]. lia.
Qed.

Lemma scan_once_dumps (v : json) : reads_back v.
Proof.
  induction v as [|b|z|s|l IH|d IH] using json_nested_ind;
    intros Hwf n rest Hn Hrest.
  - destruct n as [|m]; [cbn in Hn; lia|]. reflexivity.
  - destruct n as [|m]; [cbn in Hn; lia|]. destruct b; reflexivity.
  - destruct n as [|m]; [cbn in Hn; lia|]. cbn [json_dumps].
    pose proof (scan_atom_int z rest Hrest) as Ha.
    destruct (int_repr_head z) as (c & t & E & Hc). rewrite E in *.
    cbn [app] in *. rewrite scan_once_atom; [exact Ha|..];
      (destruct Hc as [Hc| ->]; [|discriminate]);
      unfold in_range in Hc; apply andb_true_iff in Hc as [H1 H2];
      apply N.leb_le in H1; apply N.leb_le in H2; lia.
  - destruct n as [|m]; [cbn in Hn; lia|]. cbn [json_dumps wf_json] in *.
    unfold encode_basestring_ascii. cbn [app]. rewrite scan_once_string.
    rewrite <- app_assoc. cbn [app]. now rewrite scanstring_escape.
  - rewrite fuel_of_list in Hn. destruct n as [|m]; [lia|].
    destruct l as [|x r]; [reflexivity|].
    apply wf_json_list in Hwf. apply Forall_cons in Hwf as [Hwx Hwf].
    apply Forall_cons in IH as [Hx IH].
    rewrite json_dumps_list. cbn [app]. rewrite <- app_assoc.
    pose proof (array_loop_dumps r IH Hwf x m rest Hx Hwx) as Ha.
    destruct (json_dumps_head x) as (c & t & E & Hc & Hc'). rewrite E in *.
    cbn [app] in *. rewrite scan_once_list by assumption.
    rewrite Ha; [reflexivity|lia|exact Hrest].
  - rewrite fuel_of_dict in Hn. destruct n as [|m]; [lia|].
    destruct d as [|[k x] r]; [reflexivity|].
    apply wf_json_dict in Hwf as [Hnd Hwf].
    apply Forall_cons in Hwf as [[Hwk Hwx] Hwf]. cbn [fst snd] in *.
    apply Forall_cons in IH as [Hx IH]. cbn [snd] in Hx.
    rewrite json_dumps_dict. unfold encode_basestring_ascii. cbn [app].
    rewrite scan_once_dict. rewrite <- !app_assoc. cbn [app].
    rewrite <- app_assoc.
    rewrite (object_loop_dumps r IH Hwf k x m rest Hx Hwk Hwx);
      [|lia|exact Hrest].
    cbn [bind fst snd]. now rewrite dict_of_pairs_nodup.
Qed.
End value_codec.

Section loads_dumps.
Local Open Scope nat_scope.

Lemma length_int_repr (z : Z) : 1 <= length (int_repr z).
Proof.
  destruct (int_repr_head z) as (c & t & -> & _). cbn [length]. lia.
Qed.

Lemma fuel_le_length (v : json) : fuel_of v <= length (json_dumps v).
Proof.
  induction v as [|b|z|s|l IH|d IH] using json_nested_ind.
  - cbn. lia.
  - destruct b; cbn; lia.
  - apply length_int_repr.
  - cbn. lia.
  - destruct l as [|x r]; [cbn; lia|].
    rewrite json_dumps_list, fuel_of_list. apply Forall_cons in IH as [Hx IH].
    cbn [length fuel_of_items]. rewrite length_app.
    assert (H : S (fuel_of_items r) <= length (dumps_items r)).
    { clear Hx. induction r as [|y r IHr]; [cbn; lia|].
      apply Forall_cons in IH as [Hy IH]. specialize (IHr IH).
      cbn [dumps_items fuel_of_items length]. rewrite length_app. lia. }
    lia.
  - destruct d as [|[k x] r]; [cbn; lia|].
    rewrite json_dumps_dict, fuel_of_dict. apply Forall_cons in IH as [Hx IH].
    cbn [snd] in Hx. cbn [length fuel_of_pairs snd].
    rewrite length_app. cbn [length]. rewrite length_app.
    assert (H : S (fuel_of_pairs r) <= length (dumps_pairs r)).
    { clear Hx. induction r as [|[k' y] r IHr]; [cbn; lia|].
      apply Forall_cons in IH as [Hy IH]. specialize (IHr IH). cbn [snd] in Hy.
      cbn [dumps_pairs fuel_of_pairs length snd]. rewrite length_app.
      cbn [length]. rewrite length_app. lia. }
    lia.
Qed.

(** [json.loads(json.dumps(v)) == v] for well-formed data. *)
Lemma json_loads_dumps (v : json) :
  wf_json v -> json_loads (json_dumps v) = Ok v.
Proof.
  intros Hwf. unfold json_loads.
  pose proof (skip_ws_dumps v []) as Hs. rewrite app_nil_r in Hs. rewrite Hs.
  pose proof (scan_once_dumps v Hwf (S (2 * length (json_dumps v))) []) as H.
  rewrite app_nil_r in H. rewrite H; [reflexivity| |exact I].
  pose proof (fuel_le_length v). lia.
Qed.
(** The hypothesis on strings is needed: two surrogates side by side are
    printed as two escapes, which the decoder joins into one character. *)
Lemma json_loads_dumps_joins_surrogates :
  json_loads (json_dumps (JStr [0xD83D; 0xDE00]%N)) = Ok (JStr [0x1F600%N]).
Proof. vm_compute. reflexivity. Qed.
End loads_dumps.

(** *** Bytes: ASCII text, the length prefix and slices *)

Section byte_codec.
Local Open Scope N_scope.

#[local] Ltac Zify.zify_post_hook ::= Z.to_euclidean_division_equations.

Lemma to_N_byte_of_N (n : N) : n < 256 -> Byte.to_N (byte_of_N n) = n.
Proof.
  intros H. unfold byte_of_N. destruct (Byte.of_N n) as [b|] eqn:E.
  - now apply Byte.to_of_N.
  - apply Byte.of_N_None_iff in E. lia.
Qed.

Lemma byte_of_N_to_N (b : byte) : byte_of_N (Byte.to_N b) = b.
Proof. unfold byte_of_N. now rewrite Byte.of_to_N. Qed.

Lemma to_N_lt_256 (b : byte) : Byte.to_N b < 256.
Proof. pose proof (Byte.to_N_bounded b). lia. Qed.

Lemma str_encode_ascii (s : pystr) :
  is_ascii s -> str_encode s = Ok (List.map byte_of_N s).
Proof.
  induction 1 as [|c s Hc Hs IH]; [reflexivity|].
  cbn [str_encode List.map]. unfold encode_char.
  destruct (N.ltb_spec c 128); [|lia]. cbn [bind]. now rewrite IH.
Qed.

Lemma bytes_decode_ascii (s : pystr) :
  is_ascii s -> bytes_decode (List.map byte_of_N s) = Ok s.
Proof.
  induction 1 as [|c s Hc Hs IH]; [reflexivity|].
  cbn [List.map bytes_decode]. rewrite to_N_byte_of_N by lia.
  destruct (N.ltb_spec c 128); [|lia]. now rewrite IH.
Qed.

Lemma is_ascii_app (a b : pystr) : is_ascii a -> is_ascii b -> is_ascii (a ++ b).
Proof. intros Ha Hb. apply Forall_app. now split. Qed.

Lemma hexdigit_ascii (n : N) : n < 16 -> hexdigit n < 128.
Proof. intros H. unfold hexdigit. destruct (N.ltb_spec n 10); lia. Qed.

Lemma format_04x_ascii (n : N) : is_ascii (format_04x n).
Proof.
  unfold format_04x. repeat constructor; apply hexdigit_ascii;
    rewrite land_15; apply N.mod_upper_bound; discriminate.
Qed.

Lemma escape_char_ascii (c : N) : is_ascii (escape_char c).
Proof.
  unfold escape_char.
  repeat match goal with
  | |- context [N.eqb c ?k] =>
      destruct (N.eqb_spec c k); [repeat constructor; reflexivity|]
  end.
  destruct (in_range 32 126 c) eqn:Hp.
  { unfold in_range in Hp. apply andb_true_iff in Hp as [_ Hp].
    apply N.leb_le in Hp. repeat constructor. lia. }
  destruct (N.ltb_spec c 0x10000).
  - repeat (constructor; [reflexivity|]). apply format_04x_ascii.
  - cbv zeta. apply is_ascii_app;
      (repeat (constructor; [reflexivity|])); apply format_04x_ascii.
Qed.

Lemma encode_basestring_ascii_ascii (s : pystr) :
  is_ascii (encode_basestring_ascii s).
Proof.
  unfold encode_basestring_ascii. constructor; [reflexivity|].
  apply is_ascii_app; [|repeat constructor; reflexivity].
  induction s as [|c s IH]; [constructor|]. cbn [flat_map].
  apply is_ascii_app; [apply escape_char_ascii|exact IH].
Qed.

Lemma chars_of_uint_ascii (d : Decimal.uint) : is_ascii (chars_of_uint d).
Proof.
  induction d; cbn [chars_of_uint]; constructor; try reflexivity; assumption.
Qed.

Lemma int_repr_ascii (z : Z) : is_ascii (int_repr z).
Proof.
  destruct z; cbn [int_repr]; repeat (constructor; [reflexivity|]);
    try constructor; apply chars_of_uint_ascii.
Qed.

(** With [ensure_ascii], [json.dumps] prints ASCII only. *)
Lemma json_dumps_ascii (v : json) : is_ascii (json_dumps v).
Proof.
  induction v as [|b|z|s|l IH|d IH] using json_nested_ind.
  - repeat constructor; reflexivity.
  - destruct b; repeat constructor; reflexivity.
  - apply int_repr_ascii.
  - apply encode_basestring_ascii_ascii.
  - destruct l as [|x r]; [repeat constructor; reflexivity|].
    rewrite json_dumps_list. apply Forall_cons in IH as [Hx IH].
    constructor; [reflexivity|]. apply is_ascii_app; [exact Hx|].
    induction r as [|y r IHr]; [repeat constructor; reflexivity|].
    apply Forall_cons in IH as [Hy IH]. cbn [dumps_items].
    do 2 (constructor; [reflexivity|]). apply is_ascii_app; auto.
  - destruct d as [|[k x] r]; [repeat constructor; reflexivity|].
    rewrite json_dumps_dict. apply Forall_cons in IH as [Hx IH].
    constructor; [reflexivity|].
    apply is_ascii_app; [apply encode_basestring_ascii_ascii|].
    do 2 (constructor; [reflexivity|]). apply is_ascii_app; [exact Hx|].
    induction r as [|[k' y] r IHr]; [repeat constructor; reflexivity|].
    apply Forall_cons in IH as [Hy IH]. cbn [dumps_pairs].
    do 2 (constructor; [reflexivity|]).
    apply is_ascii_app; [apply encode_basestring_ascii_ascii|].
    do 2 (constructor; [reflexivity|]). apply is_ascii_app; auto.
Qed.

(** The four bytes of a length below [2^31] read back as that length. *)
Lemma pack_i_from_bytes (n : Z) :
  (0 <= n < 2147483648)%Z ->
  exists b3 b2 b1 b0,
    pack_i n = Ok [b3; b2; b1; b0] /\
    int_from_bytes [b3; b2; b1; b0] = Z.to_N n.
Proof.
  intros H. unfold pack_i.
  destruct (Z.leb_spec (-2147483648) n); [|lia].
  destruct (Z.leb_spec n 2147483647); [|lia]. cbn [andb].
  do 4 eexists. split; [reflexivity|].
  rewrite Z.mod_small by lia. set (u := Z.to_N n).
  assert (Hu : u < 2147483648) by (unfold u; lia).
  unfold int_from_bytes. cbn [fold_left].
  change 0xFF with (N.ones 8). rewrite !N.land_ones, !N.shiftr_div_pow2.
  change (2 ^ 24) with 16777216. change (2 ^ 16) with 65536.
  change (2 ^ 8) with 256.
  rewrite !to_N_byte_of_N by lia. lia.
Qed.

Lemma pack_i_out_of_range (n : Z) :
  (2147483648 <= n)%Z -> pack_i n = Raise StructError.
Proof.
  intros H. unfold pack_i. destruct (Z.leb_spec n 2147483647); [lia|].
  now rewrite andb_false_r.
Qed.

Lemma slice_to_app (a b : bytes) :
  slice_to (N.of_nat (length a)) (a ++ b) = a.
Proof.
  induction a as [|x a IH]; cbn [length app].
  - destruct b; reflexivity.
  - cbn [slice_to]. destruct (N.eqb_spec (N.of_nat (S (length a))) 0); [lia|].
    replace (N.pred (N.of_nat (S (length a)))) with (N.of_nat (length a)) by lia.
    now rewrite IH.
Qed.


Lemma slice_from_short (a : bytes) :
  (length a < 4)%nat -> slice_from 4 a = [].
Proof.
  intros H. destruct a as [|a0 [|a1 [|a2 [|a3 a]]]]; try reflexivity.
  cbn [length] in H. lia.
Qed.
End byte_codec.

(* ===================================================================== *)
(** ** Facts about Delivery *)
(* ===================================================================== *)

Section delivery_facts.

Lemma wf_str_forallb (s : pystr) : forallb is_scalar s = true -> wf_str s.
Proof.
  intros H. apply Forall_forall. intros c Hc.
  rewrite forallb_forall in H. apply H. now apply list_elem_of_In.
Qed.

Lemma wf_jsonb_sound (v : json) : wf_jsonb v = true -> wf_json v.
Proof.
  induction v as [|b|z|s|l IH|d IH] using json_nested_ind; intros H;
    try exact I.
  - now apply wf_str_forallb.
  - apply wf_json_list. cbn [wf_jsonb] in H.
    induction IH as [|x l Hx _ IHl]; [constructor|].
    cbn [forallb] in H. apply andb_true_iff in H as [H1 H2].
    constructor; auto.
  - apply wf_json_dict. cbn [wf_jsonb] in H.
    apply andb_true_iff in H as [Hn H]. split.
    + now apply bool_decide_eq_true in Hn.
    + clear Hn. induction IH as [|x l Hx _ IHl]; [constructor|].
      cbn [forallb] in H. apply andb_true_iff in H as [H1 H2].
      apply andb_true_iff in H1 as [H1 H3].
      constructor; [split; [now apply wf_str_forallb|auto]|auto].
Qed.

Lemma wf_argsb_sound (type : pystr) (address replyAddress : option pystr)
    (header body : option dict) :
  wf_argsb type address replyAddress header body = true ->
  wf_args type address replyAddress header body.
Proof.
  unfold wf_argsb, wf_args. rewrite !andb_true_iff.
  intros ((((H1 & H2) & H3) & H4) & H5).
  repeat split; try (now apply wf_jsonb_sound). now apply wf_str_forallb.
Qed.

(** The dict built by [__init__], field by field. *)
Lemma Delivery_init_data (type : pystr) (address replyAddress : option pystr)
    (header body : option dict) :
  data (Delivery_init type address replyAddress header body)
  = (py "type", JStr type) ::
    field "address" (str_arg address) ++
    field "replyAddress" (str_arg replyAddress) ++
    field "header" (dict_arg header) ++
    field "body" (dict_arg body).
Proof.
  unfold Delivery_init, field.
  destruct (truthy (str_arg address)), (truthy (str_arg replyAddress)),
    (truthy (dict_arg header)), (truthy (dict_arg body)); reflexivity.
Qed.


Lemma Delivery_init_wf (type : pystr) (address replyAddress : option pystr)
    (header body : option dict) :
  wf_args type address replyAddress header body ->
  wf_json (JDict (data (Delivery_init type address replyAddress header body))).
Proof.
  intros (Ht & Ha & Hr & Hh & Hb). rewrite Delivery_init_data.
  apply wf_json_dict. unfold field.
  destruct (truthy (str_arg address)), (truthy (str_arg replyAddress)),
    (truthy (dict_arg header)), (truthy (dict_arg body));
    (split; [apply (bool_decide_unpack _); vm_compute; exact I|]);
    cbn [app]; repeat (apply Forall_cons; split; [split; cbn [fst snd]|]);
    try (apply Forall_nil; exact I); try assumption;
    apply wf_str_forallb; reflexivity.
Qed.

(** [serialize]: four bytes that read back as the length of the text,
    then the text, one byte a character. *)
Lemma serialize_small (self : Delivery) :
  (Z.of_nat (length (repr self)) < 2147483648)%Z ->
  exists b3 b2 b1 b0,
    serialize self = Ok (b3 :: b2 :: b1 :: b0 :: List.map byte_of_N (repr self))
    /\ int_from_bytes [b3; b2; b1; b0] = N.of_nat (length (repr self)).
Proof.
  intros H. unfold serialize.
  rewrite str_encode_ascii by apply json_dumps_ascii. cbn [bind].
  rewrite length_map. unfold struct_pack_i_s.
  destruct (pack_i_from_bytes (Z.of_nat (length (repr self))))
    as (b3 & b2 & b1 & b0 & Hp & Hi); [lia|].
  exists b3, b2, b1, b0. rewrite Hp. split; [reflexivity|].
  rewrite Hi. lia.
Qed.

Lemma serialize_large (self : Delivery) :
  (2147483648 <= Z.of_nat (length (repr self)))%Z ->
  serialize self = Raise StructError.
Proof.
  intros H. unfold serialize.
  rewrite str_encode_ascii by apply json_dumps_ascii. cbn [bind].
  rewrite length_map. unfold struct_pack_i_s.
  now rewrite pack_i_out_of_range.
Qed.

Lemma serialize_ok_inv (self : Delivery) (frame : bytes) :
  serialize self = Ok frame ->
  (Z.of_nat (length (repr self)) < 2147483648)%Z.
Proof.
  intros H. destruct (Z.lt_ge_cases (Z.of_nat (length (repr self))) 2147483648)
    as [Hlt|Hge]; [exact Hlt|].
  rewrite serialize_large in H by exact Hge. discriminate.
Qed.

Lemma slice_to_4 (b3 b2 b1 b0 : byte) (r : bytes) :
  slice_to 4 (b3 :: b2 :: b1 :: b0 :: r) = [b3; b2; b1; b0].
Proof. destruct r; reflexivity. Qed.

(** [deserialize] on a frame reads the text of the frame, whatever
    bytes come after it. *)
Lemma deserialize_frame (b3 b2 b1 b0 : byte) (text : pystr) (extra : bytes) :
  int_from_bytes [b3; b2; b1; b0] = N.of_nat (length text) ->
  is_ascii text ->
  deserialize (b3 :: b2 :: b1 :: b0 :: List.map byte_of_N text ++ extra)
  = json_loads text.
Proof.
  intros Hi Ha. unfold deserialize.
  rewrite slice_to_4.
  change (slice_from 4 (b3 :: b2 :: b1 :: b0 :: List.map byte_of_N text ++ extra))
    with (List.map byte_of_N text ++ extra).
  rewrite Hi. rewrite <- (length_map byte_of_N text) at 1.
  rewrite slice_to_app, bytes_decode_ascii by exact Ha. reflexivity.
Qed.

(** The frame of an envelope decodes to the envelope's dict, also when
    more bytes follow the frame. *)
Lemma deserialize_serialize (self : Delivery) (frame extra : bytes) :
  wf_json (JDict (data self)) ->
  serialize self = Ok frame ->
  deserialize (frame ++ extra) = Ok (JDict (data self)).
Proof.
  intros Hwf Hs. pose proof (serialize_ok_inv _ _ Hs) as Hlt.
  destruct (serialize_small self Hlt) as (b3 & b2 & b1 & b0 & Hf & Hi).
  rewrite Hf in Hs. injection Hs as <-. cbn [app].
  rewrite deserialize_frame; [|exact Hi|apply json_dumps_ascii].
  now apply json_loads_dumps.
Qed.
End delivery_facts.

(* ===================================================================== *)
(** ** The frame codec: claims C1, C3 and C10 *)
(* ===================================================================== *)

Section frame_codec_claims.







End frame_codec_claims.



Section falsy_fields.

Lemma field_falsy (k : string) (v : json) : truthy v = false -> field k v = [].
Proof. intros H. unfold field. now rewrite H. Qed.

Lemma Delivery_init_type (type : pystr) (address replyAddress : option pystr)
    (header body : option dict) :
  dict_get (py "type")
    (data (Delivery_init type address replyAddress header body))
  = Some (JStr type).
Proof. now rewrite Delivery_init_data. Qed.

Lemma Delivery_init_address (type : pystr) (address replyAddress : option pystr)
    (header body : option dict) :
  get_value (py "address")
    (data (Delivery_init type address replyAddress header body))
  = if truthy (str_arg address) then str_arg address else JNull.
Proof.
  rewrite Delivery_init_data. unfold field, get_value.
  destruct (truthy (str_arg address)), (truthy (str_arg replyAddress)),
    (truthy (dict_arg header)), (truthy (dict_arg body)); reflexivity.
Qed.

Lemma Delivery_init_omits (type : pystr) (address replyAddress : option pystr)
    (header body : option dict) :
  let d := data (Delivery_init type address replyAddress header body) in
  (truthy (str_arg address) = false -> dict_contains (py "address") d = false)
  /\ (truthy (str_arg replyAddress) = false ->
      dict_contains (py "replyAddress") d = false)
  /\ (truthy (dict_arg header) = false -> dict_contains (py "header") d = false)
  /\ (truthy (dict_arg body) = false -> dict_contains (py "body") d = false).
Proof.
  cbv zeta. rewrite Delivery_init_data. unfold field.
  repeat split; intros ->;
    repeat match goal with
    | |- context [truthy ?v] => destruct (truthy v)
    end; reflexivity.
Qed.

(** C10.  An optional argument bound to a falsy value, the empty string
    for [address] and [replyAddress] or the empty dict for [header] and
    [body], leaves the envelope as if the argument had not been given:
    the key is absent from [self.data].  The key [type] is always
    there.  The frame of the envelope decodes to [self.data], so the
    decoded mapping has no key for the falsy field either. *)
Theorem falsy_fields_omitted
    (type : pystr) (address replyAddress : option pystr)
    (header body : option dict) :
  let e := Delivery_init type address replyAddress header body in
  dict_get (py "type") (data e) = Some (JStr type)
  /\ (address = Some [] ->
      e = Delivery_init type None replyAddress header body
      /\ dict_contains (py "address") (data e) = false)
  /\ (replyAddress = Some [] ->
      e = Delivery_init type address None header body
      /\ dict_contains (py "replyAddress") (data e) = false)
  /\ (header = Some [] ->
      e = Delivery_init type address replyAddress None body
      /\ dict_contains (py "header") (data e) = false)
  /\ (body = Some [] ->
      e = Delivery_init type address replyAddress header None
      /\ dict_contains (py "body") (data e) = false)
  /\ (wf_args type address replyAddress header body ->
      forall frame, serialize e = Ok frame ->
      deserialize frame = Ok (JDict (data e))).
Proof.
  intros e. subst e.
  destruct (Delivery_init_omits type address replyAddress header body)
    as (Ha & Hr & Hh & Hb).
  split; [apply Delivery_init_type|].
  split; [intros ->; split; [reflexivity|now apply Ha]|].
  split; [intros ->; split; [reflexivity|now apply Hr]|].
  split; [intros ->; split; [reflexivity|now apply Hh]|].
  split; [intros ->; split; [reflexivity|now apply Hb]|].
  intros Hwf frame Hs. rewrite <- (app_nil_r frame).
  apply deserialize_serialize; [|exact Hs]. now apply Delivery_init_wf.
Qed.

Lemma falsy_fields_omitted_witness :
  let e := Delivery_init (py "send") (Some []) (Some []) (Some []) (Some []) in
  data e = [(py "type", JStr (py "send"))]
  /\ e = Delivery_init (py "send") None (Some []) (Some []) (Some [])
  /\ dict_contains (py "address") (data e) = false
  /\ exists frame, serialize e = Ok frame
       /\ deserialize frame = Ok (JDict [(py "type", JStr (py "send"))]).
Proof.
  pose proof (falsy_fields_omitted (py "send") (Some []) (Some []) (Some [])
                (Some [])) as (_ & Ha & _ & _ & _ & Hw).
  destruct (Ha eq_refl) as [He Hc].
  split; [reflexivity|]. split; [exact He|]. split; [exact Hc|].
  eexists. split; [vm_compute; reflexivity|].
  apply Hw; [apply wf_argsb_sound|]; vm_compute; reflexivity.
Defined.
End falsy_fields.

(* ===================================================================== *)
(** ** The event bus: claims C4 to C9 *)
(* ===================================================================== *)

Section event_bus_claims.

Lemma deserialize_serialize_exact (self : Delivery) (frame : bytes) :
  wf_json (JDict (data self)) ->
  serialize self = Ok frame ->
  deserialize frame = Ok (JDict (data self)).
Proof.
  intros Hwf Hs. rewrite <- (app_nil_r frame). now apply deserialize_serialize.
Qed.

Lemma truthy_str (a : pystr) : a <> [] -> truthy (JStr a) = true.
Proof. destruct a; [congruence|reflexivity]. Qed.

Lemma get_type (type : pystr) (address replyAddress : option pystr)
    (header body : option dict) :
  get_value (py "type")
    (data (Delivery_init type address replyAddress header body))
  = JStr type.
Proof. unfold get_value. now rewrite Delivery_init_type. Qed.





Lemma set_inputs_set_inputs (q q' : list Delivery) (self : EventBus) :
  set_inputs q (set_inputs q' self) = set_inputs q self.
Proof. reflexivity. Qed.



(** C9, counterexample.  The second [connect] on a fresh instance creates
    a second connection loop and a second keepalive task. *)
Lemma connect_twice_creates_tasks :
  tasks (snd (connect (snd (connect new_bus))))
  = [ConnectThenListen; Ping; ConnectThenListen; Ping]
  /\ ~ connect_is_guarded.
Proof.
  split; [reflexivity|]. intros H.
  specialize (H (snd (connect new_bus)) eq_refl). discriminate.
Qed.

(** C9, amended.  [connect] has no guard.  On an instance whose thread
    is started it creates a second connection loop task and a second
    keepalive task and then raises the [RuntimeError] of
    [Thread.start]; no second thread is started.  On a fresh instance it
    creates the two tasks and starts the thread. *)
Theorem connect_again_raises (self : EventBus) :
  (daemon_started self = true ->
     connect self
     = (Raise RuntimeError,
        set_tasks (tasks self ++ [ConnectThenListen; Ping]) self))
  /\ (daemon_started self = false ->
      connect self
      = (Ok tt,
         set_daemon_started true
           (set_tasks (tasks self ++ [ConnectThenListen; Ping]) self))).
Proof.
  unfold connect. cbn [tasks daemon_started set_tasks].
  rewrite <- app_assoc. cbn [app].
  split; intros ->; reflexivity.
Qed.

Lemma connect_again_raises_witness :
  connect (snd (connect new_bus))
  = (Raise RuntimeError,
     set_tasks [ConnectThenListen; Ping; ConnectThenListen; Ping]
       (snd (connect new_bus)))
  /\ connect new_bus
     = (Ok tt,
        set_daemon_started true
          (set_tasks [ConnectThenListen; Ping] new_bus)).
Proof.
  split.
  - apply (connect_again_raises (snd (connect new_bus))). reflexivity.
  - apply (connect_again_raises new_bus). reflexivity.
Defined.
End event_bus_claims.

Section dispatch_claims.

(** [listen] on a mapping that lacks [address] or [body] does nothing. *)
Lemma listen_missing_key (d : dict) (self : EventBus) :
  dict_contains (py "address") d = false \/ dict_contains (py "body") d = false ->
  listen (JDict d) self = (Ok tt, self).
Proof.
  intros H. unfold listen. cbn [contains].
  destruct (dict_contains (py "address") d); [|reflexivity].
  destruct H as [H|H]; [discriminate|]. now rewrite H.
Qed.

(** [listen] on a mapping that holds both keys, up to the lookup in the
    listener table. *)
Lemma listen_both_keys (d : dict) (address body : json) (self : EventBus) :
  dict_get (py "address") d = Some address ->
  dict_get (py "body") d = Some body ->
  listen (JDict d) self
  = match hash_key address with
    | None => (Raise TypeError, self)
    | Some k =>
        match listen_funcs self !! k with
        | Some func => (Ok tt, set_calls (calls self ++ [(func, body)]) self)
        | None => (Ok tt, self)
        end
    end.
Proof.
  intros Ha Hb. unfold listen. cbn [contains subscript].
  assert (Hca : dict_contains (py "address") d = true)
    by (apply dict_contains_get; eauto).
  assert (Hcb : dict_contains (py "body") d = true)
    by (apply dict_contains_get; eauto).
  rewrite Hca, Hcb, Ha, Hb. reflexivity.
Qed.

(** [listen] invokes the handler registered for a hashable address, once
    and with the body of the mapping; without a handler it does
    nothing. *)
Lemma listen_dispatch (d : dict) (address body : json) (k : key)
    (self : EventBus) :
  dict_get (py "address") d = Some address ->
  dict_get (py "body") d = Some body ->
  hash_key address = Some k ->
  (forall func, listen_funcs self !! k = Some func ->
     listen (JDict d) self
     = (Ok tt, set_calls (calls self ++ [(func, body)]) self))
  /\ (listen_funcs self !! k = None -> listen (JDict d) self = (Ok tt, self)).
Proof.
  intros Ha Hb Hk. rewrite (listen_both_keys d address body self Ha Hb), Hk.
  split; [intros func ->|intros ->]; reflexivity.
Qed.

(** C4, the failing input.  A decoded mapping whose address is a JSON
    array: no handler is registered for it, and [listen] does not drop
    the mapping but raises the [TypeError] of the lookup of an
    unhashable key. *)
Theorem listen_unhashable_address_raises :
  listen (JDict [(py "address", JList []); (py "body", JDict [])]) new_bus
  = (Raise TypeError, new_bus)
  /\ forall (d : dict) (address body : json) (self : EventBus),
       dict_get (py "address") d = Some address ->
       dict_get (py "body") d = Some body ->
       hash_key address = None ->
       listen (JDict d) self = (Raise TypeError, self).
Proof.
  split; [reflexivity|]. intros d address body self Ha Hb Hk.
  now rewrite (listen_both_keys d address body self Ha Hb), Hk.
Qed.

Lemma listen_unhashable_address_raises_witness :
  listen (JDict [(py "address", JList [JInt 1]); (py "body", JInt 2)])
    new_bus
  = (Raise TypeError, new_bus).
Proof.
  exact (proj2 listen_unhashable_address_raises
           [(py "address", JList [JInt 1]); (py "body", JInt 2)]
           (JList [JInt 1]) (JInt 2) new_bus eq_refl eq_refl eq_refl).
Defined.

(** [on_incoming] dispatches the first frame of what was read and
    ignores every byte after it. *)
Lemma on_incoming_first_frame (e : Delivery) (frame extra : bytes)
    (self : EventBus) :
  wf_json (JDict (data e)) ->
  serialize e = Ok frame ->
  on_incoming (frame ++ extra) self = listen (JDict (data e)) self.
Proof.
  intros Hwf Hs. unfold on_incoming.
  now rewrite (deserialize_serialize e frame extra Hwf Hs).
Qed.

(** C7, the failing input.  One read returns the frames of two
    deliveries.  [on_incoming] decodes the first frame alone and calls the
    handler once; the second delivery is lost.  Dispatching the two
    deliveries one after the other calls the handler twice. *)
Theorem on_incoming_two_frames_one_dispatch :
  exists frame1 frame2,
    serialize first_delivery = Ok frame1
    /\ serialize second_delivery = Ok frame2
    /\ on_incoming (frame1 ++ frame2) news_listener
       = (Ok tt,
          set_calls [(Callback 0, JDict [(py "msg", JStr (py "hi"))])]
            news_listener)
    /\ calls (snd (listen (JDict (data second_delivery))
                     (snd (listen (JDict (data first_delivery))
                             news_listener))))
       = [(Callback 0, JDict [(py "msg", JStr (py "hi"))]);
          (Callback 0, JDict [(py "msg", JStr (py "bye"))])].
Proof.
  destruct (serialize_small first_delivery)
    as (a3 & a2 & a1 & a0 & Hf1 & _); [vm_compute; reflexivity|].
  destruct (serialize_small second_delivery)
    as (c3 & c2 & c1 & c0 & Hf2 & _); [vm_compute; reflexivity|].
  do 2 eexists. split; [exact Hf1|]. split; [exact Hf2|].
  split; [|vm_compute; reflexivity].
  rewrite (on_incoming_first_frame first_delivery _ _ news_listener);
    [|apply wf_jsonb_sound; vm_compute; reflexivity|exact Hf1].
  apply (proj1 (listen_dispatch (data first_delivery) (JStr (py "news"))
                  (JDict [(py "msg", JStr (py "hi"))]) (KStr (py "news"))
                  news_listener eq_refl eq_refl eq_refl) (Callback 0)).
  apply lookup_insert_eq.
Qed.
End dispatch_claims.

(** *** The decoder is total and raises [JSONDecodeError] only *)

Section decoder_totality.



















End decoder_totality.


(* ===================================================================== *)
(** ** Decoding arbitrary bytes: claim C2 *)
(* ===================================================================== *)

Section decode_claims.
Local Open Scope N_scope.




End decode_claims.

(* ===================================================================== *)
(** ** Further properties of the module *)
(* ===================================================================== *)



Section listener_table.

Lemma set_listen_funcs_same (self : EventBus) :
  set_listen_funcs (listen_funcs self) self = self.
Proof. now destruct self. Qed.



(** X2.  [delete_listen_func] after [add_listen_func] on one address
    returns normally, logs no error and leaves the address without a
    handler; when the address had no handler before, the instance is
    back in its former state. *)
Theorem add_then_delete_listen_func
    (address : json) (k : key) (func : handler) (self : EventBus) :
  hash_key address = Some k ->
  let added := snd (add_listen_func address func self) in
  fst (delete_listen_func address added) = Ok tt
  /\ listen_funcs (snd (delete_listen_func address added)) !! k = None
  /\ errors (snd (delete_listen_func address added)) = errors self
  /\ (listen_funcs self !! k = None ->
      delete_listen_func address added = (Ok tt, self)).
Proof.
  intros Hk. unfold add_listen_func, delete_listen_func. rewrite Hk.
  cbn [snd listen_funcs set_listen_funcs]. rewrite lookup_insert_eq.
  cbn [fst snd listen_funcs set_listen_funcs errors].
  split; [reflexivity|]. split; [apply lookup_delete_eq|].
  split; [reflexivity|]. intros Hnone.
  rewrite delete_insert_eq, delete_id by exact Hnone.
  now destruct self.
Qed.

Lemma add_then_delete_listen_func_witness :
  delete_listen_func (JStr (py "news")) news_listener = (Ok tt, new_bus).
Proof.
  apply (add_then_delete_listen_func (JStr (py "news")) (KStr (py "news"))
           (Callback 0) new_bus eq_refl).
  apply lookup_empty.
Defined.



Lemma send_register (a : pystr) (replyAddress : option pystr)
    (header body : option dict) (self : EventBus) :
  a <> [] ->
  let e := Delivery_init (py "register") (Some a) replyAddress header body in
  send e self
  = (Ok tt,
     set_inputs (inputs self ++ [e])
       (set_listen_funcs
          (<[KStr a := LogDelivery (JStr a)]> (listen_funcs self)) self)).
Proof.
  intros Ha e. unfold send. subst e.
  rewrite Delivery_init_address, get_type. cbn [str_arg].
  rewrite truthy_str by exact Ha. cbv iota.
  rewrite truthy_str by exact Ha. reflexivity.
Qed.

(** X4.  [send] of a register envelope and [add_listen_func] write the
    same slot of the listener table, and the later call wins: [send]
    replaces a caller's handler by the logging handler, and
    [add_listen_func] after [send] replaces the logging handler. *)
Theorem send_register_and_add_listen_func
    (a : pystr) (replyAddress : option pystr) (header body : option dict)
    (func : handler) (self : EventBus) :
  a <> [] ->
  let e := Delivery_init (py "register") (Some a) replyAddress header body in
  listen_funcs (snd (send e (snd (add_listen_func (JStr a) func self))))
    !! KStr a = Some (LogDelivery (JStr a))
  /\ listen_funcs (snd (add_listen_func (JStr a) func (snd (send e self))))
       !! KStr a = Some func.
Proof.
  intros Ha e. subst e. split.
  - rewrite send_register by exact Ha.
    cbn [snd listen_funcs set_inputs set_listen_funcs].
    apply lookup_insert_eq.
  - rewrite send_register by exact Ha. unfold add_listen_func.
    cbn [hash_key snd listen_funcs set_inputs set_listen_funcs].
    apply lookup_insert_eq.
Qed.

Lemma send_register_and_add_listen_func_witness :
  let e := Delivery_init (py "register") (Some (py "news")) None None None in
  listen_funcs (snd (send e news_listener)) !! KStr (py "news")
  = Some (LogDelivery (JStr (py "news"))).
Proof.
  refine (proj1 (send_register_and_add_listen_func (py "news") None None None
                   (Callback 0) new_bus _)).
  discriminate.
Defined.

(** X5.  What [send] does to an instance, for every payload.  Either the
    address held by the payload is unhashable, and [send] raises
    [TypeError] and changes nothing; or [send] returns, the payload is
    the new last element of the queue, and the calls, the written bytes,
    the tasks, the thread flag, the error count and the handlers of all
    other addresses are unchanged. *)
Theorem send_effect (payload : Delivery) (self : EventBus) :
  let address := get_value (py "address") (data payload) in
  let self' := snd (send payload self) in
  (hash_key address = None /\ send payload self = (Raise TypeError, self))
  \/ (fst (send payload self) = Ok tt
      /\ inputs self' = inputs self ++ [payload]
      /\ calls self' = calls self
      /\ written self' = written self
      /\ tasks self' = tasks self
      /\ daemon_started self' = daemon_started self
      /\ errors self' = errors self
      /\ forall k, hash_key address <> Some k ->
           listen_funcs self' !! k = listen_funcs self !! k).
Proof.
  cbv zeta. unfold send.
  destruct (truthy (get_value (py "address") (data payload))
            && equals_str (get_value (py "type") (data payload))
                 (py "register")).
  - destruct (hash_key (get_value (py "address") (data payload))) as [k|];
      [right|left; split; reflexivity].
    cbn [fst snd inputs calls written tasks daemon_started errors listen_funcs
         set_inputs set_listen_funcs].
    repeat split. intros k' Hne. apply lookup_insert_ne. congruence.
  - right. cbn [fst snd inputs calls written tasks daemon_started errors
                listen_funcs set_inputs set_listen_funcs].
    repeat split.
Qed.

Lemma send_effect_witness :
  send {| data := [(py "type", JStr (py "register"));
                   (py "address", JList [JInt 1])] |} new_bus
  = (Raise TypeError, new_bus).
Proof.
  destruct (send_effect {| data := [(py "type", JStr (py "register"));
                                    (py "address", JList [JInt 1])] |}
              new_bus) as [[_ H]|[H _]]; [exact H|].
  vm_compute in H. discriminate.
Defined.

(** X6.  What [listen] does to an instance, for every decoded value.
    It never changes the listener table, the queue, the written bytes,
    the tasks or the error count; it returns or raises [TypeError] and
    nothing else; and it either leaves the instance unchanged or adds
    exactly one call, the call of the handler registered for the
    address of the value with the body of the value. *)
Theorem listen_effect (obj : json) (self : EventBus) :
  let self' := snd (listen obj self) in
  listen_funcs self' = listen_funcs self
  /\ inputs self' = inputs self
  /\ written self' = written self
  /\ tasks self' = tasks self
  /\ errors self' = errors self
  /\ (fst (listen obj self) = Ok tt \/ fst (listen obj self) = Raise TypeError)
  /\ (self' = self
      \/ exists address body k func,
           subscript obj (py "address") = Ok address
           /\ subscript obj (py "body") = Ok body
           /\ hash_key address = Some k
           /\ listen_funcs self !! k = Some func
           /\ listen obj self
              = (Ok tt, set_calls (calls self ++ [(func, body)]) self)).
Proof.
  cbv zeta. unfold listen.
  destruct obj as [|b|z|s|l|d]; cbn [contains];
    try (cbn [fst snd]; repeat split; auto; fail).
  - destruct (is_substring (py "address") s);
      [destruct (is_substring (py "body") s)|];
      cbn [subscript fst snd]; repeat split; auto.
  - destruct (existsb _ l); [destruct (existsb _ l)|];
      cbn [subscript fst snd]; repeat split; auto.
  - destruct (dict_contains (py "address") d) eqn:Ea;
      [|cbn [fst snd]; repeat split; auto].
    destruct (dict_contains (py "body") d) eqn:Eb;
      [|cbn [fst snd]; repeat split; auto].
    apply dict_contains_get in Ea as [address Ha].
    apply dict_contains_get in Eb as [body Hb].
    cbn [subscript]. rewrite Ha, Hb.
    destruct (hash_key address) as [k|] eqn:Hk;
      [|cbn [fst snd]; repeat split; auto].
    destruct (listen_funcs self !! k) as [func|] eqn:Hf;
      [|cbn [fst snd]; repeat split; auto].
    unfold invoke. cbn [fst snd listen_funcs inputs written tasks errors
                        set_calls].
    repeat split; auto. right. exists address, body, k, func. auto.
Qed.
End listener_table.


Section dispatch_edges.

(** X7.  [listen] on a decoded value that is not a mapping never calls
    a handler.  On null, a boolean or a number it raises [TypeError]; on
    a string or a list it returns when one of the two keys is not found
    in it, and raises [TypeError] on the subscript when both are
    found. *)
Theorem listen_not_a_mapping (obj : json) (self : EventBus) :
  (forall d, obj <> JDict d) ->
  listen obj self
  = (match contains (py "address") obj, contains (py "body") obj with
     | Ok true, Ok true => Raise TypeError
     | Ok _, Ok _ => Ok tt
     | _, _ => Raise TypeError
     end, self)
  /\ match obj with
     | JNull | JBool _ | JInt _ => listen obj self = (Raise TypeError, self)
     | _ => True
     end.
Proof.
  intros Hd. unfold listen.
  destruct obj as [|b|z|s|l|d]; cbn [contains]; try (split; reflexivity).
  - destruct (is_substring (py "address") s);
      destruct (is_substring (py "body") s); split; reflexivity || exact I.
  - destruct (existsb (fun v => equals_str v (py "address")) l);
      destruct (existsb (fun v => equals_str v (py "body")) l);
      split; reflexivity || exact I.
  - now destruct (Hd d).
Qed.

Lemma listen_not_a_mapping_witness :
  listen (JStr (py "address body")) new_bus = (Raise TypeError, new_bus)
  /\ listen (JList [JStr (py "address")]) new_bus = (Ok tt, new_bus)
  /\ listen (JInt 5) new_bus = (Raise TypeError, new_bus).
Proof.
  split; [|split].
  - refine (proj1 (listen_not_a_mapping (JStr (py "address body")) new_bus _)).
    discriminate.
  - refine (proj1 (listen_not_a_mapping (JList [JStr (py "address")])
                     new_bus _)).
    discriminate.
  - refine (proj1 (listen_not_a_mapping (JInt 5) new_bus _)). discriminate.
Defined.

Lemma deserialize_short (byte_array : bytes) :
  length byte_array < 4 -> deserialize byte_array = Raise JSONDecodeError.
Proof.
  intros H. unfold deserialize. rewrite slice_from_short by exact H.
  now destruct (int_from_bytes (slice_to 4 byte_array)).
Qed.

Lemma listen_frame (obj : json) (self : EventBus) :
  let self' := snd (listen obj self) in
  listen_funcs self' = listen_funcs self
  /\ inputs self' = inputs self
  /\ written self' = written self
  /\ (self' = self
      \/ exists func body,
           listen obj self
           = (Ok tt, set_calls (calls self ++ [(func, body)]) self)).
Proof.
  cbv zeta. unfold listen.
  destruct (contains (py "address") obj) as [[|]| | |];
    try (cbn [snd]; repeat split; auto; fail).
  destruct (contains (py "body") obj) as [[|]| | |];
    try (cbn [snd]; repeat split; auto; fail).
  destruct (subscript obj (py "address")) as [address|e| |];
    destruct (subscript obj (py "body")) as [body|e'| |];
    try (cbn [snd]; repeat split; auto; fail).
  destruct (hash_key address) as [k|]; [|cbn [snd]; repeat split; auto].
  destruct (listen_funcs self !! k) as [func|];
    [|cbn [snd]; repeat split; auto].
  unfold invoke. cbn [snd listen_funcs inputs written set_calls].
  repeat split; auto. right. eauto.
Qed.

(** X8.  What the inbound step does to an instance, for every read.  It
    never changes the listener table, the queue or the written bytes; it
    leaves the instance unchanged or adds exactly one handler call; and
    on a read of fewer than four bytes, the empty read at the end of the
    stream among them, it raises [JSONDecodeError] and changes
    nothing. *)
Theorem on_incoming_effect (byte : bytes) (self : EventBus) :
  let self' := snd (on_incoming byte self) in
  listen_funcs self' = listen_funcs self
  /\ inputs self' = inputs self
  /\ written self' = written self
  /\ (self' = self
      \/ exists func body,
           on_incoming byte self
           = (Ok tt, set_calls (calls self ++ [(func, body)]) self))
  /\ (length byte < 4 -> on_incoming byte self = (Raise JSONDecodeError, self)).
Proof.
  cbv zeta. unfold on_incoming.
  destruct (deserialize byte) as [obj|e| |] eqn:E;
    try (cbn [snd]; repeat split; auto;
         intros H; rewrite (deserialize_short byte H) in E; congruence).
  destruct (listen_frame obj self) as (H1 & H2 & H3 & H4).
  repeat split; auto.
  intros H. rewrite (deserialize_short byte H) in E. discriminate.
Qed.

Lemma on_incoming_effect_witness :
  on_incoming [] news_listener = (Raise JSONDecodeError, news_listener).
Proof.
  apply (on_incoming_effect [] news_listener). cbn. lia.
Defined.
End dispatch_edges.

Section frame_edges.
Local Open Scope N_scope.

Lemma slice_to_app_ge (n : N) (a b : bytes) :
  n <= N.of_nat (length a) -> slice_to n (a ++ b) = slice_to n a.
Proof.
  revert n. induction a as [|x a IH]; intros n H.
  - cbn [length] in H. assert (n = 0) as -> by lia. now destruct b.
  - cbn [app slice_to]. destruct (N.eqb_spec n 0); [reflexivity|].
    rewrite IH; [reflexivity|]. cbn [length] in H. lia.
Qed.

Lemma slice_from_app (i : nat) (a b : bytes) :
  (i <= length a)%nat -> slice_from i (a ++ b) = slice_from i a ++ b.
Proof.
  revert a. induction i as [|i IH]; intros a H.
  - now destruct a.
  - destruct a as [|x a]; [cbn in H; lia|]. cbn [app slice_from].
    apply IH. cbn [length] in H. lia.
Qed.

Lemma length_slice_from (i : nat) (a : bytes) :
  length (slice_from i a) = (length a - i)%nat.
Proof.
  revert a. induction i as [|i IH]; intros a.
  - destruct a; cbn; lia.
  - destruct a as [|x a]; [reflexivity|]. cbn [slice_from length]. apply IH.
Qed.

(** X9.  [deserialize] reads the first 4 + L bytes only: when the
    buffer holds the four bytes of the prefix and at least the L bytes
    they announce, bytes appended to the buffer do not change the
    result. *)
Theorem deserialize_ignores_trailing_bytes (byte_array extra : bytes) :
  (4 <= length byte_array)%nat ->
  int_from_bytes (slice_to 4 byte_array) <= N.of_nat (length byte_array - 4) ->
  deserialize (byte_array ++ extra) = deserialize byte_array.
Proof.
  intros H4 HL. unfold deserialize.
  rewrite slice_to_app_ge by lia.
  rewrite slice_from_app by exact H4.
  rewrite slice_to_app_ge; [reflexivity|]. now rewrite length_slice_from.
Qed.

Lemma deserialize_ignores_trailing_bytes_witness :
  deserialize ([x00; x00; x00; x02; x7b; x7d] ++ [xff; x00; x7b])
  = Ok (JDict []).
Proof.
  rewrite (deserialize_ignores_trailing_bytes [x00; x00; x00; x02; x7b; x7d]
             [xff; x00; x7b]).
  - vm_compute. reflexivity.
  - cbn. lia.
  - vm_compute. discriminate.
Defined.

(** X10.  The frame determines the envelope: two envelopes of
    well-formed data that [serialize] to the same frame are equal. *)
Theorem serialize_injective (e1 e2 : Delivery) (frame : bytes) :
  wf_json (JDict (data e1)) -> wf_json (JDict (data e2)) ->
  serialize e1 = Ok frame -> serialize e2 = Ok frame ->
  e1 = e2.
Proof.
  intros W1 W2 H1 H2.
  pose proof (deserialize_serialize_exact e1 frame W1 H1) as D1.
  pose proof (deserialize_serialize_exact e2 frame W2 H2) as D2.
  rewrite D1 in D2. destruct e1, e2. cbn in D2. congruence.
Qed.

Lemma serialize_injective_witness :
  Delivery_default = Delivery_init (py "ping") (Some []) None (Some []) None.
Proof.
  destruct (serialize_small Delivery_default)
    as (b3 & b2 & b1 & b0 & Hf & _); [vm_compute; reflexivity|].
  eapply (serialize_injective Delivery_default
            (Delivery_init (py "ping") (Some []) None (Some []) None));
    [apply wf_jsonb_sound; vm_compute; reflexivity
    |apply wf_jsonb_sound; vm_compute; reflexivity
    |exact Hf|exact Hf].
Defined.
End frame_edges.

Section envelope_fields.

Lemma Delivery_init_get (type : pystr) (address replyAddress : option pystr)
    (header body : option dict) :
  let d := data (Delivery_init type address replyAddress header body) in
  dict_get (py "address") d
  = (if truthy (str_arg address) then Some (str_arg address) else None)
  /\ dict_get (py "replyAddress") d
     = (if truthy (str_arg replyAddress) then Some (str_arg replyAddress)
        else None)
  /\ dict_get (py "header") d
     = (if truthy (dict_arg header) then Some (dict_arg header) else None)
  /\ dict_get (py "body") d
     = (if truthy (dict_arg body) then Some (dict_arg body) else None).
Proof.
  cbv zeta. rewrite Delivery_init_data. unfold field.
  destruct (truthy (str_arg address)), (truthy (str_arg replyAddress)),
    (truthy (dict_arg header)), (truthy (dict_arg body));
    repeat split; reflexivity.
Qed.

Lemma truthy_dict (d : dict) : d <> [] -> truthy (JDict d) = true.
Proof. destruct d; [congruence|reflexivity]. Qed.

(** X11.  [Delivery.__init__] stores every optional argument that is
    not empty under its key, unchanged.  The keys of [self.data] are
    distinct, the first of them is [type], and at most four follow. *)
Theorem Delivery_init_fields
    (type : pystr) (address replyAddress : option pystr)
    (header body : option dict) :
  let d := data (Delivery_init type address replyAddress header body) in
  (forall a, address = Some a -> a <> [] ->
     dict_get (py "address") d = Some (JStr a))
  /\ (forall a, replyAddress = Some a -> a <> [] ->
      dict_get (py "replyAddress") d = Some (JStr a))
  /\ (forall h, header = Some h -> h <> [] ->
      dict_get (py "header") d = Some (JDict h))
  /\ (forall b, body = Some b -> b <> [] ->
      dict_get (py "body") d = Some (JDict b))
  /\ NoDup (List.map fst d)
  /\ (exists rest, d = (py "type", JStr type) :: rest /\ (length rest <= 4)%nat).
Proof.
  cbv zeta.
  destruct (Delivery_init_get type address replyAddress header body)
    as (Ha & Hr & Hh & Hb).
  split; [intros a -> Hne; rewrite Ha; cbn [str_arg];
          now rewrite truthy_str|].
  split; [intros a -> Hne; rewrite Hr; cbn [str_arg];
          now rewrite truthy_str|].
  split; [intros h -> Hne; rewrite Hh; cbn [dict_arg];
          now rewrite truthy_dict|].
  split; [intros b -> Hne; rewrite Hb; cbn [dict_arg];
          now rewrite truthy_dict|].
  rewrite Delivery_init_data. unfold field.
  destruct (truthy (str_arg address)), (truthy (str_arg replyAddress)),
    (truthy (dict_arg header)), (truthy (dict_arg body));
    (split; [apply (bool_decide_unpack _); vm_compute; exact I
            |eexists; split; [reflexivity|cbn; lia]]).
Qed.

Lemma Delivery_init_fields_witness :
  let d := data (Delivery_init (py "send") (Some (py "news")) None None
                   (Some [(py "msg", JStr (py "hi"))])) in
  dict_get (py "address") d = Some (JStr (py "news"))
  /\ dict_get (py "body") d = Some (JDict [(py "msg", JStr (py "hi"))]).
Proof.
  pose proof (Delivery_init_fields (py "send") (Some (py "news")) None None
                (Some [(py "msg", JStr (py "hi"))])) as (Ha & _ & _ & Hb & _).
  split; [apply Ha|apply Hb]; (reflexivity || discriminate).
Defined.

(** X12.  The text of [__repr__] is ASCII, so [str.encode] returns one
    byte for each of its characters and [bytes.decode] gives the text
    back; for well-formed data [json.loads] of the text is
    [self.data]. *)
Theorem repr_parses_back (self : Delivery) :
  is_ascii (repr self)
  /\ (exists msg, str_encode (repr self) = Ok msg
                  /\ bytes_decode msg = Ok (repr self)
                  /\ length msg = length (repr self))
  /\ (wf_json (JDict (data self)) ->
      json_loads (repr self) = Ok (JDict (data self))).
Proof.
  split; [apply json_dumps_ascii|]. split.
  - exists (List.map byte_of_N (repr self)).
    rewrite str_encode_ascii, bytes_decode_ascii by apply json_dumps_ascii.
    rewrite length_map. auto.
  - apply json_loads_dumps.
Qed.

Lemma repr_parses_back_witness :
  json_loads (repr first_delivery) = Ok (JDict (data first_delivery)).
Proof.
  apply (repr_parses_back first_delivery).
  apply wf_jsonb_sound. vm_compute. reflexivity.
Defined.
End envelope_fields.

Section connect_again.

Lemma connect_times_started (n : nat) (self : EventBus) :
  daemon_started (connect_times (S n) self) = true.
Proof.
  cbn [connect_times]. unfold connect.
  cbn [daemon_started set_tasks].
  destruct (daemon_started (connect_times n self)) eqn:E;
    cbn [snd daemon_started set_tasks set_daemon_started]; [exact E|reflexivity].
Qed.

Lemma connect_tasks (self : EventBus) :
  tasks (snd (connect self)) = tasks self ++ [ConnectThenListen; Ping]
  /\ listen_funcs (snd (connect self)) = listen_funcs self
  /\ inputs (snd (connect self)) = inputs self.
Proof.
  unfold connect. cbn [daemon_started set_tasks tasks].
  destruct (daemon_started self);
    cbn [snd tasks listen_funcs inputs set_tasks set_daemon_started];
    rewrite <- app_assoc; auto.
Qed.

(** X13.  [connect] called [n] times on one instance leaves [2 n] tasks
    on the event loop, a connection loop and a keepalive for each call,
    and never touches the listener table or the queue; every call after
    the first raises [RuntimeError]. *)
Theorem connect_times_tasks (n : nat) (self : EventBus) :
  tasks (connect_times n self)
  = tasks self ++ concat (repeat [ConnectThenListen; Ping] n)
  /\ listen_funcs (connect_times n self) = listen_funcs self
  /\ inputs (connect_times n self) = inputs self
  /\ (forall m, fst (connect (connect_times (S m) self)) = Raise RuntimeError).
Proof.
  split; [|split; [|split]].
  - induction n as [|n IH]; [cbn; now rewrite app_nil_r|].
    cbn [connect_times].
    destruct (connect_tasks (connect_times n self)) as (-> & _ & _).
    rewrite IH, <- app_assoc. f_equal.
    clear IH. induction n as [|n IHn]; [reflexivity|].
    cbn [repeat concat]. cbn [repeat concat] in IHn.
    rewrite <- app_assoc, IHn. reflexivity.
  - induction n as [|n IH]; [reflexivity|]. cbn [connect_times].
    destruct (connect_tasks (connect_times n self)) as (_ & -> & _). exact IH.
  - induction n as [|n IH]; [reflexivity|]. cbn [connect_times].
    destruct (connect_tasks (connect_times n self)) as (_ & _ & ->). exact IH.
  - intros m. pose proof (connect_times_started m self) as H.
    unfold connect at 1. cbn [daemon_started set_tasks]. now rewrite H.
Qed.
End connect_again.

Section connection_loop.

Lemma serialize_all_app (a b : list Delivery) (fa fb : bytes) :
  serialize_all a = Ok fa -> serialize_all b = Ok fb ->
  serialize_all (a ++ b) = Ok (fa ++ fb).
Proof.
  revert fa. induction a as [|p a IH]; intros fa Ha Hb.
  - injection Ha as <-. exact Hb.
  - cbn [app serialize_all] in *.
    destruct (serialize p) as [f| | |]; try discriminate. cbn [bind] in *.
    destruct (serialize_all a) as [fs| | |]; try discriminate.
    cbn [bind] in *. injection Ha as <-.
    rewrite (IH fs eq_refl Hb). cbn [bind]. now rewrite app_assoc.
Qed.

Lemma progressed_refl (self : EventBus) : progressed 0 self self.
Proof.
  exists 0, [], []. cbn [take drop serialize_all length].
  rewrite !app_nil_r. repeat split; auto. lia.
Qed.

Lemma progressed_trans (k1 k2 : nat) (a b c : EventBus) :
  progressed k1 a b -> progressed k2 b c -> progressed (k1 + k2) a c.
Proof.
  intros (n1 & f1 & c1 & L1 & I1 & S1 & W1 & F1 & C1 & K1)
         (n2 & f2 & c2 & L2 & I2 & S2 & W2 & F2 & C2 & K2).
  rewrite I1 in L2, I2, S2. rewrite length_drop in L2.
  exists (n1 + n2), (f1 ++ f2), (c1 ++ c2). repeat split.
  - lia.
  - now rewrite I2, drop_drop.
  - rewrite <- take_take_drop. now apply serialize_all_app.
  - now rewrite W2, W1, app_assoc.
  - congruence.
  - now rewrite C2, C1, app_assoc.
  - rewrite length_app. lia.
Qed.

Lemma progressed_weaken (k k' : nat) (a b : EventBus) :
  progressed k a b -> k <= k' -> progressed k' a b.
Proof.
  intros (n & f & c & H1 & H2 & H3 & H4 & H5 & H6 & H7) Hk.
  exists n, f, c. repeat split; auto. lia.
Qed.

Lemma on_outgoing_progressed (self self' : EventBus) :
  on_outgoing self = (Ok tt, self') -> progressed 0 self self'.
Proof.
  unfold on_outgoing. destruct (inputs self) as [|msg rest] eqn:E.
  - intros [= <-]. apply progressed_refl.
  - destruct (serialize msg) as [frame| | |] eqn:Es; try discriminate.
    intros [= <-]. exists 1, frame, []. rewrite E.
    cbn [take drop serialize_all length inputs written listen_funcs calls
         set_written set_inputs]. rewrite Es. cbn [bind].
    change (take 0 rest) with (@nil Delivery). cbn [serialize_all bind].
    rewrite !app_nil_r. repeat split; auto. lia.
Qed.

Lemma on_incoming_frame (byte : bytes) (self : EventBus) :
  let self' := snd (on_incoming byte self) in
  listen_funcs self' = listen_funcs self
  /\ inputs self' = inputs self
  /\ written self' = written self
  /\ (self' = self
      \/ exists func body,
           on_incoming byte self
           = (Ok tt, set_calls (calls self ++ [(func, body)]) self)).
Proof.
  cbv zeta. unfold on_incoming.
  destruct (deserialize byte) as [obj|e| |];
    try (cbn [snd]; repeat split; auto; fail).
  apply listen_frame.
Qed.

Lemma on_incoming_progressed (byte : bytes) (self self' : EventBus)
    (r : result unit) :
  on_incoming byte self = (r, self') -> progressed 1 self self'.
Proof.
  intros H. destruct (on_incoming_frame byte self) as (H1 & H2 & H3 & H4).
  rewrite H in *. cbn [snd] in *.
  destruct H4 as [->|(func & body & [= _ ->])].
  - apply (progressed_weaken 0); [apply progressed_refl|lia].
  - exists 0, [], [(func, body)].
    cbn [take drop serialize_all length inputs written listen_funcs calls
         set_calls]. rewrite !app_nil_r. repeat split; auto. lia.
Qed.

Lemma iteration_progressed (w : wake) (go : bool) (self self' : EventBus) :
  iteration w self = (Ok go, self') ->
  progressed 1 self self' /\ go = negb (stop_done w).
Proof.
  unfold iteration, and_then.
  destruct (outgoing_done w).
  - destruct (on_outgoing self) as [[[]| | |] s1] eqn:E1; try discriminate.
    apply on_outgoing_progressed in E1.
    destruct (incoming_done w) as [byte|].
    + destruct (on_incoming byte s1) as [[[]| | |] s2] eqn:E2;
        try discriminate.
      apply on_incoming_progressed in E2. intros [= <- <-].
      split; [|reflexivity]. apply (progressed_trans 0 1 _ s1); assumption.
    + intros [= <- <-]. split; [|reflexivity].
      apply (progressed_weaken 0); [assumption|lia].
  - destruct (incoming_done w) as [byte|].
    + destruct (on_incoming byte self) as [[[]| | |] s2] eqn:E2;
        try discriminate.
      apply on_incoming_progressed in E2. intros [= <- <-]. auto.
    + intros [= <- <-]. split; [|reflexivity].
      apply (progressed_weaken 0); [apply progressed_refl|lia].
Qed.

(** X14.  Whatever the loop of [_connect_then_listen] is woken by, if
    it has not raised after the turns [ws], then a prefix of the queue
    has left it, the frames of exactly these payloads were written in
    queue order, the listener table is unchanged, and at most one
    handler call was added for each turn. *)
Theorem run_progressed (ws : list wake) (go : bool) (self self' : EventBus) :
  run ws self = (Ok go, self') -> progressed (length ws) self self'.
Proof.
  revert self. induction ws as [|w ws IH]; intros self.
  - intros [= <- <-]. apply progressed_refl.
  - cbn [run]. unfold and_then.
    destruct (iteration w self) as [[g| | |] s1] eqn:E; try discriminate.
    apply iteration_progressed in E as [E _]. destruct g.
    + intros H. apply IH in H. apply (progressed_trans 1 _ _ s1); assumption.
    + intros [= <- <-]. apply (progressed_weaken 1); [assumption|].
      cbn [length]. lia.
Qed.

Lemma run_progressed_witness :
  let self := snd (send_all [first_delivery; second_delivery] news_listener) in
  let ws := [outgoing_wake;
             {| outgoing_done := true;
                incoming_done := Some [x00; x00; x00; x02; x7b; x7d];
                stop_done := true |}] in
  progressed 2 self (snd (run ws self)).
Proof.
  intros self ws. apply (run_progressed ws false). vm_compute. reflexivity.
Defined.

Lemma send_frame (payload : Delivery) (self : EventBus) :
  let address := get_value (py "address") (data payload) in
  let self' := snd (send payload self) in
  (hash_key address = None /\ send payload self = (Raise TypeError, self))
  \/ (fst (send payload self) = Ok tt
      /\ inputs self' = inputs self ++ [payload]
      /\ calls self' = calls self
      /\ written self' = written self).
Proof.
  cbv zeta. unfold send.
  destruct (truthy (get_value (py "address") (data payload))
            && equals_str (get_value (py "type") (data payload))
                 (py "register")).
  - destruct (hash_key (get_value (py "address") (data payload))) as [k|];
      [right|left; split; reflexivity].
    cbn [fst snd inputs calls written set_inputs set_listen_funcs]. auto.
  - right. cbn [fst snd inputs calls written set_inputs]. auto.
Qed.

Lemma send_all_frame (payloads : list Delivery) (self self' : EventBus) :
  send_all payloads self = (Ok tt, self') ->
  inputs self' = inputs self ++ payloads
  /\ calls self' = calls self
  /\ written self' = written self.
Proof.
  revert self. induction payloads as [|p ps IH]; intros self.
  - intros [= <-]. now rewrite app_nil_r.
  - cbn [send_all]. unfold and_then.
    destruct (send_frame p self) as [[_ E]|(E1 & E2 & E3 & E4)].
    + rewrite E. discriminate.
    + destruct (send p self) as [[[]| | |] s1]; cbn [fst snd] in *;
        try discriminate.
      intros H. apply IH in H as (H1 & H2 & H3).
      rewrite H1, H2, H3, E2, E3, E4, <- app_assoc. auto.
Qed.

Lemma drain_queue (payloads : list Delivery) (frames : bytes) :
  serialize_all payloads = Ok frames ->
  forall (self : EventBus) (rest : list Delivery),
  inputs self = payloads ++ rest ->
  exists self',
    run (repeat outgoing_wake (length payloads)) self = (Ok true, self')
    /\ inputs self' = rest
    /\ written self' = written self ++ frames
    /\ calls self' = calls self
    /\ listen_funcs self' = listen_funcs self.
Proof.
  revert frames. induction payloads as [|p ps IH]; intros frames Hs self rest Hi.
  - injection Hs as <-. exists self. rewrite app_nil_r. auto.
  - cbn [serialize_all] in Hs.
    destruct (serialize p) as [f| | |] eqn:Ep; try discriminate.
    cbn [bind] in Hs.
    destruct (serialize_all ps) as [fs| | |] eqn:Eps; try discriminate.
    injection Hs as <-.
    destruct (IH fs eq_refl (set_written (written self ++ f)
                               (set_inputs (ps ++ rest) self)) rest eq_refl)
      as (s' & Hr & H1 & H2 & H3 & H4).
    exists s'. cbn [length repeat run]. unfold and_then, iteration, and_then.
    cbn [outgoing_wake outgoing_done incoming_done stop_done].
    unfold on_outgoing. rewrite Hi. cbn [app]. rewrite Ep. cbn [negb].
    cbn [written set_written set_inputs calls listen_funcs] in *.
    rewrite Hr, H2, <- app_assoc. auto.
Qed.

(** X15.  First in, first out: after [send] of the payloads of a list
    on an instance with an empty queue, as many outgoing turns of the
    loop as there are payloads empty the queue and write the frames of
    the payloads in the order of the [send] calls. *)
Theorem send_all_then_drain (payloads : list Delivery) (frames : bytes)
    (self sent : EventBus) :
  inputs self = [] ->
  send_all payloads self = (Ok tt, sent) ->
  serialize_all payloads = Ok frames ->
  exists drained,
    run (repeat outgoing_wake (length payloads)) sent = (Ok true, drained)
    /\ inputs drained = []
    /\ written drained = written self ++ frames.
Proof.
  intros Hq Hsend Hser. apply send_all_frame in Hsend as (Hi & _ & Hw).
  rewrite Hq in Hi. cbn [app] in Hi.
  destruct (drain_queue payloads frames Hser sent [])
    as (s' & Hr & H1 & H2 & _); [now rewrite app_nil_r|].
  exists s'. rewrite <- Hw. auto.
Qed.

Lemma send_all_then_drain_witness :
  exists drained frame1 frame2,
    run [outgoing_wake; outgoing_wake]
      (snd (send_all [first_delivery; second_delivery] new_bus))
    = (Ok true, drained)
    /\ serialize first_delivery = Ok frame1
    /\ serialize second_delivery = Ok frame2
    /\ written drained = frame1 ++ frame2.
Proof.
  destruct (serialize_small first_delivery)
    as (a3 & a2 & a1 & a0 & Hf1 & _); [vm_compute; reflexivity|].
  destruct (serialize_small second_delivery)
    as (c3 & c2 & c1 & c0 & Hf2 & _); [vm_compute; reflexivity|].
  destruct (send_all_then_drain [first_delivery; second_delivery]
              ((a3 :: a2 :: a1 :: a0 :: List.map byte_of_N (repr first_delivery))
               ++ (c3 :: c2 :: c1 :: c0
                   :: List.map byte_of_N (repr second_delivery)))
              new_bus
              (snd (send_all [first_delivery; second_delivery] new_bus)))
    as (drained & Hr & _ & Hw).
  - reflexivity.
  - reflexivity.
  - cbn [serialize_all]. rewrite Hf1, Hf2. cbn [bind].
    now rewrite app_nil_r.
  - exists drained. do 2 eexists. split; [exact Hr|].
    split; [exact Hf1|]. split; [exact Hf2|exact Hw].
Defined.





End connection_loop.


Section more_edges.



(** X19.  A prefix that announces no byte: [deserialize] raises
    [JSONDecodeError] whatever follows the prefix, and so does the
    inbound step, which then leaves the instance unchanged. *)
Theorem deserialize_empty_payload (byte_array : bytes) (self : EventBus) :
  int_from_bytes (slice_to 4 byte_array) = 0%N ->
  deserialize byte_array = Raise JSONDecodeError
  /\ on_incoming byte_array self = (Raise JSONDecodeError, self).
Proof.
  intros H.
  assert (Hd : deserialize byte_array = Raise JSONDecodeError).
  { unfold deserialize. rewrite H.
    now destruct (slice_from 4 byte_array). }
  split; [exact Hd|]. unfold on_incoming. now rewrite Hd.
Qed.

Lemma deserialize_empty_payload_witness :
  deserialize [x00; x00; x00; x00; x7b; x7d] = Raise JSONDecodeError.
Proof.
  apply (deserialize_empty_payload [x00; x00; x00; x00; x7b; x7d] new_bus).
  reflexivity.
Defined.
End more_edges.
